(** * A shallow embedding of the user CRUD tools

    Source: [agent/tools/tools.py], the module that [agent/agent.py]
    registers with the agent runtime (seven tools: [create_user],
    [read_user], [update_user], [delete_user], [list_users],
    [delete_all_users], [populate_database]), with the older copies
    [tools/tools.py] and [src/database.py] and the two agent modules.

    The Python functions talk to one SQLite file through [sqlite3].  The
    embedding makes the contents of that file an explicit value of type
    [Database] and threads it through every call.  It has two layers.

    The content layer.  What SQLite does to the content of the file for
    the six statements the module issues is written out in section "The
    store", and the tools are given as functions
    [Database -> result * Database]: what a call does when its statements
    run.
    - the table [users] is kept in rowid order, which is the order a full
      scan ([SELECT id, name, email FROM users], no ORDER BY) returns;
    - [id INTEGER PRIMARY KEY AUTOINCREMENT] picks one more than the larger
      of the counter in [sqlite_sequence] and the largest rowid present;
      the counter survives deletes;
    - [email TEXT NOT NULL UNIQUE] makes INSERT and UPDATE raise
      [sqlite3.IntegrityError] and back the statement out; [NOT NULL]
      cannot fail here because both columns are given [str] values.

    The process layer, module [runtime].  A statement does not always
    run: an id outside 64 bits cannot be bound, a file is locked while a
    connection that was left open keeps its transaction, and the
    AUTOINCREMENT counter has a ceiling.  [Process] adds to the file
    whether such a connection exists; the tools of [runtime] are the
    Python functions with these outcomes, exceptions that escape
    included.  The [except] paths of [create_user] and [update_user]
    return without [conn.close()]; [collect] is the moment the Python
    runtime reclaims what they left open.  The wait for a locked file
    (five seconds by default) is not modelled. *)

From Stdlib Require Import ZArith Sorted.
From stdpp Require Import base decidable option list sets sorting strings pretty.

Local Open Scope string_scope.
Local Open Scope list_scope.
Local Open Scope Z_scope.

(** ** Data model *)

(** A row of [users], and the dictionary [{"id": .., "name": .., "email": ..}]
    the tools hand back. *)
Record User := mkUser {
  id : Z;
  name : string;
  email : string
}.

#[global] Instance User_eq_dec : EqDecision User.
Proof. solve_decision. Defined.

(** The database file: the rows of [users] in rowid order and the
    AUTOINCREMENT counter SQLite keeps for the table in [sqlite_sequence]
    (0 while no row was ever inserted). *)
Record Database := mkDatabase {
  users : list User;
  sqlite_sequence : Z
}.

#[global] Instance Database_eq_dec : EqDecision Database.
Proof. solve_decision. Defined.

(** The dictionaries the tools return, one constructor per key set. *)
Inductive Reply :=
| UserReply (status : string) (user : User)
| UpdatedReply (status : string) (updated_user : User)
| MessageReply (status : string) (message : string)
| DeletedReply (status : string) (message : string) (deleted_count : nat)
| SkippedReply (status : string) (message : string) (existing_count : nat)
| PopulatedReply (status : string) (message : string)
                 (created_users : list User) (created_count : nat).

#[global] Instance Reply_eq_dec : EqDecision Reply.
Proof. solve_decision. Defined.

(** [result.get("status")] *)
Definition status (r : Reply) : string :=
  match r with
  | UserReply s _ | UpdatedReply s _ | MessageReply s _
  | DeletedReply s _ _ | SkippedReply s _ _ | PopulatedReply s _ _ _ => s
  end.

(** [result["user"]]; [None] stands for the [KeyError] of a dictionary
    without that key. *)
Definition user (r : Reply) : option User :=
  match r with
  | UserReply _ u => Some u
  | _ => None
  end.

(** ** The store *)

Inductive sqlite_exception :=
| IntegrityError
| OperationalError (msg : string).

(** [str(e)] *)
Definition str_exception (e : sqlite_exception) : string :=
  match e with
  | IntegrityError => "UNIQUE constraint failed: users.email"
  | OperationalError msg => msg
  end.

(** Largest rowid in the table, 0 for an empty table. *)
Definition max_rowid (rows : list User) : Z :=
  foldr (fun u m => Z.max (id u) m) 0 rows.

(** The rowid AUTOINCREMENT assigns to the next inserted row. *)
Definition next_rowid (db : Database) : Z :=
  Z.max (sqlite_sequence db) (max_rowid (users db)) + 1.

(** Insertion into the table b-tree: the row goes before the first row
    with a larger rowid. *)
Fixpoint btree_insert (u : User) (rows : list User) : list User :=
  match rows with
  | [] => [u]
  | v :: rest => if decide (id u < id v) then u :: v :: rest
                 else v :: btree_insert u rest
  end.

(** [INSERT INTO users (name, email) VALUES (?, ?)]; on success the new
    rowid is [cursor.lastrowid]. *)
Definition sql_insert (n e : string) (db : Database)
  : sqlite_exception + (Z * Database) :=
  if decide (e ∈ email <$> users db) then inl IntegrityError
  else
    let i := next_rowid db in
    inr (i, {| users := btree_insert (mkUser i n e) (users db);
               sqlite_sequence := i |}).

(** [SELECT id, name, email FROM users WHERE id = ?] followed by
    [fetchone()]. *)
Definition sql_select_by_id (i : Z) (db : Database) : option User :=
  head (filter (fun u => id u = i) (users db)).

(** [SELECT id, name, email FROM users] followed by [fetchall()]. *)
Definition sql_select_all (db : Database) : list User := users db.

(** [SELECT COUNT( * ) as count FROM users] *)
Definition sql_count (db : Database) : nat := length (users db).

(** [UPDATE users SET name = ?, email = ? WHERE id = ?]; on success the
    number of rows matched is [cursor.rowcount].  The statement fails when
    a matched row would take an email held by a row with another rowid. *)
Definition sql_update (n e : string) (i : Z) (db : Database)
  : sqlite_exception + (nat * Database) :=
  let matched := filter (fun u => id u = i) (users db) in
  if decide (matched = []) then inr (0%nat, db)
  else if decide (Exists (fun v => id v ≠ i ∧ email v = e) (users db))
  then inl IntegrityError
  else inr (length matched,
            {| users := (fun u => if decide (id u = i) then mkUser i n e
                                  else u) <$> users db;
               sqlite_sequence := sqlite_sequence db |}).

(** [DELETE FROM users WHERE id = ?], with [cursor.rowcount]. *)
Definition sql_delete (i : Z) (db : Database) : nat * Database :=
  (length (filter (fun u => id u = i) (users db)),
   {| users := filter (fun u => id u ≠ i) (users db);
      sqlite_sequence := sqlite_sequence db |}).

(** [DELETE FROM users]; the AUTOINCREMENT counter is kept. *)
Definition sql_delete_all (db : Database) : Database :=
  {| users := []; sqlite_sequence := sqlite_sequence db |}.

(** ** The tools of [agent/tools/tools.py], on the content of the file *)

(** [CREATE TABLE IF NOT EXISTS users (...)], run when the module is
    imported: a file that does not exist yet ([None]) becomes the empty
    database, an existing one is left as it is. *)
Definition create_table (file : option Database) : Database :=
  match file with
  | Some db => db
  | None => {| users := []; sqlite_sequence := 0 |}
  end.

Definition already_exists (e : string) : string :=
  "A user with the email '" +:+ e +:+ "' already exists.".

Definition create_user (n e : string) (db : Database) : Reply * Database :=
  match sql_insert n e db with
  | inr (user_id, db') => (UserReply "Success" (mkUser user_id n e), db')
  | inl IntegrityError => (MessageReply "Error" (already_exists e), db)
  | inl ex => (MessageReply "Error" (str_exception ex), db)
  end.

Definition read_user (user_id : Z) (db : Database) : Reply * Database :=
  match sql_select_by_id user_id db with
  | Some u => (UserReply "Success" u, db)
  | None =>
      (MessageReply "Not Found"
         ("User with ID " +:+ pretty user_id +:+ " was not found."), db)
  end.

Definition update_user (user_id : Z) (n e : option string) (db : Database)
  : Reply * Database :=
  if decide (n = None ∧ e = None)
  then (MessageReply "Error"
          "At least one field (name or email) must be provided for update.",
        db)
  else
    let '(current_user, db) := read_user user_id db in
    if decide (status current_user ≠ "Success") then (current_user, db)
    else
      match user current_user with
      | None => (current_user, db)
      | Some current_data =>
          let new_name := default (name current_data) n in
          let new_email := default (email current_data) e in
          match sql_update new_name new_email user_id db with
          | inr (rowcount, db') =>
              if decide (0 < rowcount)%nat
              then (UpdatedReply "Success"
                      (mkUser user_id new_name new_email), db')
              else (MessageReply "Not Found"
                      ("User with ID " +:+ pretty user_id +:+
                       " not found, so nothing was updated."), db')
          | inl IntegrityError =>
              (MessageReply "Error" (already_exists new_email), db)
          | inl ex => (MessageReply "Error" (str_exception ex), db)
          end
      end.

Definition delete_user (user_id : Z) (db : Database) : Reply * Database :=
  let '(rowcount, db') := sql_delete user_id db in
  if decide (0 < rowcount)%nat
  then (MessageReply "Success"
          ("User with ID " +:+ pretty user_id +:+
           " was deleted successfully."), db')
  else (MessageReply "Not Found"
          ("User with ID " +:+ pretty user_id +:+
           " not found, so nothing was deleted."), db').

Definition list_users (db : Database) : list User * Database :=
  (sql_select_all db, db).

Definition delete_all_users (db : Database) : Reply * Database :=
  let user_count := sql_count db in
  (DeletedReply "Success"
     ("All " +:+ pretty user_count +:+
      " users have been deleted from the database.")
     user_count,
   sql_delete_all db).

Definition sample_users : list (string * string) :=
  [ ("Alice Smith", "alice@example.com");
    ("Bob Johnson", "bob@example.com");
    ("Charlie Lee", "charlie@example.com");
    ("Dana White", "dana@example.com");
    ("Eve Black", "eve@example.com") ].

(** The [for name, email in sample_users] loop, carrying [created_users]
    and the database. *)
Fixpoint populate_loop (todo : list (string * string))
    (created_users : list User) (db : Database) : list User * Database :=
  match todo with
  | [] => (created_users, db)
  | (n, e) :: rest =>
      let '(result, db') := create_user n e db in
      if decide (status result = "Success")
      then populate_loop rest (created_users ++ option_list (user result)) db'
      else populate_loop rest created_users db'
  end.

Definition populate_database (db : Database) : Reply * Database :=
  let '(existing_users, db) := list_users db in
  if decide (existing_users ≠ [])
  then (SkippedReply "Skipped"
          ("Database already contains " +:+ pretty (length existing_users) +:+
           " users. No sample data added.")
          (length existing_users), db)
  else
    let '(created_users, db') := populate_loop sample_users [] db in
    (PopulatedReply "Success"
       ("Database populated with " +:+ pretty (length created_users) +:+
        " sample users.")
       created_users (length created_users), db').

(** ** Schema constraints and reachable states *)

Definition id_lt (u v : User) : Prop := id u < id v.

#[global] Instance id_lt_dec u v : Decision (id_lt u v).
Proof. unfold id_lt. apply _. Defined.

(** What the schema promises of every table: rowids are a key and are
    scanned in increasing order, emails are unique. *)
Record valid_db (db : Database) : Prop := mkValid {
  valid_primary_key : StronglySorted id_lt (users db);
  valid_unique_email : NoDup (email <$> users db)
}.

(** The seven tools registered in [agent/agent.py], with their arguments. *)
Inductive Tool :=
| CreateUser (n e : string)
| ReadUser (user_id : Z)
| UpdateUser (user_id : Z) (n e : option string)
| DeleteUser (user_id : Z)
| ListUsers
| DeleteAllUsers
| PopulateDatabase.

(** What a tool hands back to the runtime: a dictionary, or for
    [list_users] a list of user dictionaries. *)
Inductive Result :=
| Dict (r : Reply)
| Rows (l : list User).

Definition invoke (t : Tool) (db : Database) : Result * Database :=
  match t with
  | CreateUser n e => let p := create_user n e db in (Dict p.1, p.2)
  | ReadUser i => let p := read_user i db in (Dict p.1, p.2)
  | UpdateUser i n e => let p := update_user i n e db in (Dict p.1, p.2)
  | DeleteUser i => let p := delete_user i db in (Dict p.1, p.2)
  | ListUsers => let p := list_users db in (Rows p.1, p.2)
  | DeleteAllUsers => let p := delete_all_users db in (Dict p.1, p.2)
  | PopulateDatabase => let p := populate_database db in (Dict p.1, p.2)
  end.

(** The database a tool call leaves behind. *)
Definition call (t : Tool) (db : Database) : Database := (invoke t db).2.

(** States reached from a new file by any sequence of tool calls. *)
Inductive reachable : Database -> Prop :=
| reachable_new : reachable (create_table None)
| reachable_call t db : reachable db -> reachable (call t db).

(** The error taxonomy of the tools, as predicates on replies. *)
Definition DuplicateEmail (e : string) (r : Reply) : Prop :=
  r = MessageReply "Error" (already_exists e).

Definition InvalidArgument (r : Reply) : Prop :=
  r = MessageReply "Error"
        "At least one field (name or email) must be provided for update.".

Definition NotFound (r : Reply) : Prop :=
  exists msg, r = MessageReply "Not Found" msg.

(** A reply that carries one of the error variants. *)
Definition is_error (r : Reply) : Prop :=
  status r = "Error" \/ status r = "Not Found".

#[global] Instance is_error_dec r : Decision (is_error r).
Proof. unfold is_error. apply _. Defined.

(** The record [update_user] writes: supplied fields take the new value,
    the others keep the value of the current record. *)
Definition merged_user (i : Z) (n e : option string) (cur : User) : User :=
  mkUser i (default (name cur) n) (default (email cur) e).

(** C4 as stated: for an existing id and at least one supplied field, the
    call returns the merged user and the table then holds it under that id. *)
Definition update_always_merges
    (i : Z) (n e : option string) (db : Database) : Prop :=
  forall cur,
    sql_select_by_id i db = Some cur ->
    ¬ (n = None /\ e = None) ->
    (update_user i n e db).1 = UpdatedReply "Success" (merged_user i n e cur)
    /\ (read_user i (update_user i n e db).2).1
       = UserReply "Success" (merged_user i n e cur).

(** The table after [populate_database] on a new file. *)
Definition seeded : Database := (populate_database (create_table None)).2.

(** ** Sequences of tool calls *)

(** The database after the calls [ts], made one after the other. *)
Definition run (ts : list Tool) (db : Database) : Database :=
  foldl (fun d t => call t d) db ts.

(** [result['message']]; [None] stands for the [KeyError] of a dictionary
    without that key. *)
Definition message (r : Reply) : option string :=
  match r with
  | MessageReply _ m | DeletedReply _ m _ | SkippedReply _ m _
  | PopulatedReply _ m _ _ => Some m
  | UserReply _ _ | UpdatedReply _ _ => None
  end.

(** Every id in the table is at most the AUTOINCREMENT counter. *)
Definition below_sequence (db : Database) : Prop :=
  forall u, u ∈ users db -> id u <= sqlite_sequence db.

(** ** Functions that let an exception escape *)

(** How a call ends: with a value, or with an exception that no handler
    of the function catches. *)
Inductive Outcome (A : Type) :=
| Returned (a : A)
| Raised (ex : sqlite_exception).
Arguments Returned {A} a.
Arguments Raised {A} ex.

(** A call that may raise, on the database. *)
Definition Call (A : Type) : Type := Database -> Outcome A * Database.

(** [first; rest]: [rest] runs only if [first] returned. *)
Definition and_then {A B : Type} (first : Call A) (rest : A -> Call B)
  : Call B :=
  fun db =>
    match first db with
    | (Returned a, db') => rest a db'
    | (Raised ex, db') => (Raised ex, db')
    end.

#[global] Instance Call_bind : MBind Call :=
  fun A B rest first => and_then first rest.

#[global] Instance Call_ret : MRet Call :=
  fun A a db => (Returned a, db).

(** ** [src/database.py] and [src/agent.py] at start-up *)

(** The two functions of [src/database.py] that [src/agent.py] calls when
    it is imported, on the file as the import finds it; all five
    functions are given for a running process below. *)
Module database.

(** The dictionaries of [src/database.py]: a user, [{"error": ..}] or
    [{"message": ..}]. *)
Inductive Answer :=
| UserDict (user : User)
| ErrorDict (error : string)
| MessageDict (message : string).

Definition not_found (user_id : Z) : string :=
  "User with ID " +:+ pretty user_id +:+ " not found.".

(** [try: ... except sqlite3.IntegrityError: ... finally: conn.close()];
    any other exception leaves the function. *)
Definition create_user (n e : string) : Call Answer :=
  fun db =>
    match sql_insert n e db with
    | inr (user_id, db') => (Returned (UserDict (mkUser user_id n e)), db')
    | inl IntegrityError =>
        (Returned
           (ErrorDict ("User with email " +:+ e +:+ " already exists.")), db)
    | inl ex => (Raised ex, db)
    end.

Definition list_users : Call (list User) :=
  fun db => (Returned (sql_select_all db), db).

End database.

(** ** Start-up: [agent/agent.py] and [src/agent.py] *)

(** [not os.getenv("GOOGLE_API_KEY")], given what [os.getenv] returns once
    [load_dotenv()] has run: true for [None] and for the empty string. *)
Definition key_missing (key : option string) : bool :=
  match key with
  | None => true
  | Some k => bool_decide (k = "")
  end.

(** How importing an agent module ends: with the [ValueError] of the key
    check, with an exception of the seeding, or with the agent defined
    and the lines printed on the way. *)
Inductive Startup :=
| ValueError (msg : string)
| Failed (ex : sqlite_exception)
| Started (printed : list string).

Definition key_not_found : string :=
  "GOOGLE_API_KEY not found in environment variables.".

Module agent.

(** [_populate_db]: the line it prints, and the database. *)
Definition _populate_db (db : Database) : option string * Database :=
  let '(result, db') := populate_database db in
  ((fun m => "Database initialization: " +:+ m) <$> message result, db').

(** Importing [agent/agent.py]: the import of [agent.tools.tools] runs
    [create_table], then the key is checked, the agent is defined, and
    [_populate_db] is called. *)
Definition import (key : option string) (file : option Database)
  : Startup * Database :=
  let db := create_table file in
  if key_missing key then (ValueError key_not_found, db)
  else
    let '(printed, db') := _populate_db db in
    (Started (option_list printed), db').

End agent.

Module src_agent.

Definition _populate_db : Call unit :=
  existing ← database.list_users;
  if decide (existing = [])
  then
    database.create_user "Alice Smith" "alice@example.com" ;;
    database.create_user "Bob Johnson" "bob@example.com" ;;
    database.create_user "Charlie Lee" "charlie@example.com" ;;
    database.create_user "Dana White" "dana@example.com" ;;
    database.create_user "Eve Black" "eve@example.com" ;;
    mret tt
  else mret tt.

(** Importing [src/agent.py]: the import of [src.database] runs
    [create_table], then the key is checked, the agent is defined, and
    [_populate_db] is called; nothing is printed. *)
Definition import (key : option string) (file : option Database)
  : Startup * Database :=
  let db := create_table file in
  if key_missing key then (ValueError key_not_found, db)
  else
    match _populate_db db with
    | (Returned _, db') => (Started [], db')
    | (Raised ex, db') => (Failed ex, db')
    end.

End src_agent.

(** ** The tools in a running process *)

(** The definitions above give what each statement does to the content of
    the file when it runs: they leave out when it cannot run.  A running
    process adds three things, all of them visible to the caller:
    - [sqlite3] refuses to bind an integer outside 64 bits and raises
      [OverflowError];
    - a connection that was not closed keeps its transaction, and with it
      the write lock, until the Python runtime reclaims it; meanwhile
      every writing statement of another connection fails with
      [OperationalError: database is locked], while reads still work;
    - when the AUTOINCREMENT counter has reached the largest rowid, INSERT
      fails with [OperationalError: database or disk is full]. *)

(** The database file, and whether a connection left open by an earlier
    call still holds the write lock. *)
Record Process := mkProcess {
  file : Database;
  leaked : bool
}.

#[global] Instance Process_eq_dec : EqDecision Process.
Proof. solve_decision. Defined.

Inductive exception :=
| Sqlite (ex : sqlite_exception)
| OverflowError (msg : string).

(** [str(e)] *)
Definition str (ex : exception) : string :=
  match ex with
  | Sqlite ex => str_exception ex
  | OverflowError msg => msg
  end.

(** How a call ends in the process. *)
Inductive Ending (A : Type) :=
| Return (a : A)
| Raise (ex : exception).
Arguments Return {A} a.
Arguments Raise {A} ex.

(** The integers SQLite can store and [sqlite3] can bind. *)
Definition int64 (i : Z) : Prop :=
  -9223372036854775808 <= i <= 9223372036854775807.

#[global] Instance int64_dec i : Decision (int64 i).
Proof. unfold int64. apply _. Defined.

Definition too_large : exception :=
  OverflowError "Python int too large to convert to SQLite INTEGER".

Definition database_is_locked : exception :=
  Sqlite (OperationalError "database is locked").

Definition database_is_full : exception :=
  Sqlite (OperationalError "database or disk is full").

Definition no_such_table : exception :=
  Sqlite (OperationalError "no such table: users").

(** The runtime reclaims the connections that were left open: their
    transactions are rolled back and the lock is released. *)
Definition collect (p : Process) : Process :=
  {| file := file p; leaked := false |}.

(** A process that has just started on a database. *)
Definition started (db : Database) : Process :=
  {| file := db; leaked := false |}.

Module runtime.

(** *** The statements *)

Definition lift {A : Type} (r : sqlite_exception + A) : exception + A :=
  match r with
  | inl ex => inl (Sqlite ex)
  | inr a => inr a
  end.

(** INSERT: the write lock is taken first, then the rowid is chosen, then
    the row is checked and written. *)
Definition execute_insert (n e : string) (p : Process)
  : exception + (Z * Database) :=
  if leaked p then inl database_is_locked
  else if decide (9223372036854775807 < next_rowid (file p))
  then inl database_is_full
  else lift (sql_insert n e (file p)).

(** SELECT by id: the id is bound first; a read needs no write lock. *)
Definition execute_select_by_id (i : Z) (p : Process)
  : exception + option User :=
  if decide (int64 i) then inr (sql_select_by_id i (file p))
  else inl too_large.

(** UPDATE and DELETE by id: the id is bound first, then the write lock
    is taken, whether or not a row has the id. *)
Definition execute_update (n e : string) (i : Z) (p : Process)
  : exception + (nat * Database) :=
  if decide (int64 i) then
    if leaked p then inl database_is_locked
    else lift (sql_update n e i (file p))
  else inl too_large.

Definition execute_delete (i : Z) (p : Process)
  : exception + (nat * Database) :=
  if decide (int64 i) then
    if leaked p then inl database_is_locked
    else inr (sql_delete i (file p))
  else inl too_large.

Definition execute_delete_all (p : Process) : exception + Database :=
  if leaked p then inl database_is_locked
  else inr (sql_delete_all (file p)).

(** *** [agent/tools/tools.py] *)

(** [conn.close()] is on the success path only: a call that ends in the
    [IntegrityError] handler leaves its connection, and the write lock,
    behind. *)
Definition create_user (n e : string) (p : Process)
  : Ending Reply * Process :=
  match execute_insert n e p with
  | inr (user_id, db') =>
      (Return (UserReply "Success" (mkUser user_id n e)),
       {| file := db'; leaked := leaked p |})
  | inl (Sqlite IntegrityError) =>
      (Return (MessageReply "Error" (already_exists e)),
       {| file := file p; leaked := true |})
  | inl ex => (Return (MessageReply "Error" (str ex)), p)
  end.

(** No [try]: an exception of [cursor.execute] leaves the function. *)
Definition read_user (user_id : Z) (p : Process) : Ending Reply * Process :=
  match execute_select_by_id user_id p with
  | inl ex => (Raise ex, p)
  | inr (Some u) => (Return (UserReply "Success" u), p)
  | inr None =>
      (Return
         (MessageReply "Not Found"
            ("User with ID " +:+ pretty user_id +:+ " was not found.")), p)
  end.

(** [read_user] is called before the [try]. *)
Definition update_user (user_id : Z) (n e : option string) (p : Process)
  : Ending Reply * Process :=
  if decide (n = None ∧ e = None)
  then (Return
          (MessageReply "Error"
             "At least one field (name or email) must be provided for update."),
        p)
  else
    match read_user user_id p with
    | (Raise ex, p) => (Raise ex, p)
    | (Return current_user, p) =>
        if decide (status current_user ≠ "Success")
        then (Return current_user, p)
        else
          match user current_user with
          | None => (Return current_user, p)
          | Some current_data =>
              let new_name := default (name current_data) n in
              let new_email := default (email current_data) e in
              match execute_update new_name new_email user_id p with
              | inr (rowcount, db') =>
                  if decide (0 < rowcount)%nat
                  then (Return (UpdatedReply "Success"
                                  (mkUser user_id new_name new_email)),
                        {| file := db'; leaked := leaked p |})
                  else (Return
                          (MessageReply "Not Found"
                             ("User with ID " +:+ pretty user_id +:+
                              " not found, so nothing was updated.")),
                        {| file := db'; leaked := leaked p |})
              | inl (Sqlite IntegrityError) =>
                  (Return (MessageReply "Error" (already_exists new_email)),
                   {| file := file p; leaked := true |})
              | inl ex => (Return (MessageReply "Error" (str ex)), p)
              end
          end
    end.

(** No [try]. *)
Definition delete_user (user_id : Z) (p : Process)
  : Ending Reply * Process :=
  match execute_delete user_id p with
  | inl ex => (Raise ex, p)
  | inr (rowcount, db') =>
      if decide (0 < rowcount)%nat
      then (Return
              (MessageReply "Success"
                 ("User with ID " +:+ pretty user_id +:+
                  " was deleted successfully.")),
            {| file := db'; leaked := leaked p |})
      else (Return
              (MessageReply "Not Found"
                 ("User with ID " +:+ pretty user_id +:+
                  " not found, so nothing was deleted.")),
            {| file := db'; leaked := leaked p |})
  end.

Definition list_users (p : Process) : list User * Process :=
  (sql_select_all (file p), p).

(** No [try]: the count is read, then the DELETE may raise. *)
Definition delete_all_users (p : Process) : Ending Reply * Process :=
  let user_count := sql_count (file p) in
  match execute_delete_all p with
  | inl ex => (Raise ex, p)
  | inr db' =>
      (Return
         (DeletedReply "Success"
            ("All " +:+ pretty user_count +:+
             " users have been deleted from the database.")
            user_count),
       {| file := db'; leaked := leaked p |})
  end.

Fixpoint populate_loop (todo : list (string * string))
    (created_users : list User) (p : Process)
  : Ending (list User) * Process :=
  match todo with
  | [] => (Return created_users, p)
  | (n, e) :: rest =>
      match create_user n e p with
      | (Raise ex, p') => (Raise ex, p')
      | (Return result, p') =>
          if decide (status result = "Success")
          then populate_loop rest
                 (created_users ++ option_list (user result)) p'
          else populate_loop rest created_users p'
      end
  end.

Definition populate_database (p : Process) : Ending Reply * Process :=
  let '(existing_users, p) := list_users p in
  if decide (existing_users ≠ [])
  then (Return
          (SkippedReply "Skipped"
             ("Database already contains " +:+
              pretty (length existing_users) +:+
              " users. No sample data added.")
             (length existing_users)), p)
  else
    match populate_loop sample_users [] p with
    | (Raise ex, p') => (Raise ex, p')
    | (Return created_users, p') =>
        (Return
           (PopulatedReply "Success"
              ("Database populated with " +:+
               pretty (length created_users) +:+ " sample users.")
              created_users (length created_users)), p')
    end.

(** The process a tool call leaves behind. *)
Definition call (t : Tool) (p : Process) : Process :=
  match t with
  | CreateUser n e => (create_user n e p).2
  | ReadUser i => (read_user i p).2
  | UpdateUser i n e => (update_user i n e p).2
  | DeleteUser i => (delete_user i p).2
  | ListUsers => (list_users p).2
  | DeleteAllUsers => (delete_all_users p).2
  | PopulateDatabase => (populate_database p).2
  end.

(** *** [tools/tools.py] *)

(** Nothing in [tools/tools.py] creates the table: [None] is a file
    without it, on which the statement cannot be prepared. *)
Module tools.

Definition update_user (user_id : Z) (n e : string) (disk : option Process)
  : Ending Reply * option Process :=
  match disk with
  | None => (Raise no_such_table, None)
  | Some p =>
      match execute_update n e user_id p with
      | inl (Sqlite IntegrityError) =>
          (Raise (Sqlite IntegrityError),
           Some {| file := file p; leaked := true |})
      | inl ex => (Raise ex, Some p)
      | inr (rowcount, db') =>
          if decide (0 < rowcount)%nat
          then (Return (UpdatedReply "Success" (mkUser user_id n e)),
                Some {| file := db'; leaked := leaked p |})
          else (Return
                  (MessageReply "Not Found"
                     ("User with ID " +:+ pretty user_id +:+
                      " not found, so nothing was updated.")),
                Some {| file := db'; leaked := leaked p |})
      end
  end.

End tools.

(** *** [src/database.py] *)

Module database.

(** [finally: conn.close()]: the connection is closed on every path, so
    this function leaves no lock behind; only [IntegrityError] is
    caught. *)
Definition create_user (n e : string) (p : Process)
  : Ending database.Answer * Process :=
  match execute_insert n e p with
  | inr (user_id, db') =>
      (Return (database.UserDict (mkUser user_id n e)),
       {| file := db'; leaked := leaked p |})
  | inl (Sqlite IntegrityError) =>
      (Return
         (database.ErrorDict
            ("User with email " +:+ e +:+ " already exists.")), p)
  | inl ex => (Raise ex, p)
  end.

Definition read_user (user_id : Z) (p : Process)
  : Ending database.Answer * Process :=
  match execute_select_by_id user_id p with
  | inl ex => (Raise ex, p)
  | inr (Some u) => (Return (database.UserDict u), p)
  | inr None =>
      (Return (database.ErrorDict (database.not_found user_id)), p)
  end.

(** No [try]: [conn.close()] is not reached when the statement raises. *)
Definition update_user (user_id : Z) (n e : string) (p : Process)
  : Ending database.Answer * Process :=
  match execute_update n e user_id p with
  | inl (Sqlite IntegrityError) =>
      (Raise (Sqlite IntegrityError), {| file := file p; leaked := true |})
  | inl ex => (Raise ex, p)
  | inr (rowcount, db') =>
      if decide (0 < rowcount)%nat
      then (Return (database.UserDict (mkUser user_id n e)),
            {| file := db'; leaked := leaked p |})
      else (Return (database.ErrorDict (database.not_found user_id)),
            {| file := db'; leaked := leaked p |})
  end.

Definition delete_user (user_id : Z) (p : Process)
  : Ending database.Answer * Process :=
  match execute_delete user_id p with
  | inl ex => (Raise ex, p)
  | inr (rowcount, db') =>
      if decide (0 < rowcount)%nat
      then (Return
              (database.MessageDict
                 ("User with ID " +:+ pretty user_id +:+
                  " deleted successfully.")),
            {| file := db'; leaked := leaked p |})
      else (Return (database.ErrorDict (database.not_found user_id)),
            {| file := db'; leaked := leaked p |})
  end.

End database.

End runtime.

(** One thing that happens in the process: a tool is called, or the
    runtime reclaims what was left open. *)
Inductive Event :=
| Invoke (t : Tool)
| Collect.

Definition after (ev : Event) (p : Process) : Process :=
  match ev with
  | Invoke t => runtime.call t p
  | Collect => collect p
  end.

(** The processes reached from a start on a new file. *)
Inductive reachable_process : Process -> Prop :=
| reachable_start : reachable_process (started (create_table None))
| reachable_after ev p :
    reachable_process p -> reachable_process (after ev p).

(** The seeded table in a process that holds no lock, and in one where
    a refused [create_user] has left its connection behind. *)
Definition seeded_process : Process := started seeded.

Definition seeded_locked : Process :=
  (runtime.create_user "Al" "alice@example.com" seeded_process).2.

(** ** The tools on short sessions *)

(** Alice is created on a new file; Bob with her email is refused; the
    list has Alice only. *)
Example scenario_alice :
  let db0 := create_table None in
  let first := create_user "Alice Smith" "alice@example.com" db0 in
  let second := create_user "Bob" "alice@example.com" first.2 in
  first.1 = UserReply "Success" (mkUser 1 "Alice Smith" "alice@example.com")
  /\ second.1
     = MessageReply "Error"
         "A user with the email 'alice@example.com' already exists."
  /\ (list_users second.2).1 = [mkUser 1 "Alice Smith" "alice@example.com"].
Proof. repeat split. Qed.

(** Rowids are not reused: a refused insert takes none, and neither
    [delete_user] nor [delete_all_users] gives one back.  The refused
    [create_user] leaves the file locked: the call after it is answered
    "database is locked" and changes nothing; the session goes on once
    the runtime has reclaimed the connection. *)
Example session_rowids :
  let p1 := (runtime.create_user "a" "a@x" (started (create_table None))).2 in
  let p2 := (runtime.create_user "b" "a@x" p1).2 in
  let locked_out := runtime.create_user "c" "c@x" p2 in
  let p3 := (runtime.create_user "c" "c@x" (collect p2)).2 in
  let p4 := (runtime.delete_user 2 p3).2 in
  let p5 := (runtime.create_user "e" "e@x" p4).2 in
  let p6 := (runtime.delete_all_users p5).2 in
  let p7 := (runtime.create_user "d" "d@x" p6).2 in
  file p2 = file p1
  /\ leaked p2 = true
  /\ locked_out = (Return (MessageReply "Error" "database is locked"), p2)
  /\ p3 = started (mkDatabase [mkUser 1 "a" "a@x"; mkUser 2 "c" "c@x"] 2)
  /\ p5 = started (mkDatabase [mkUser 1 "a" "a@x"; mkUser 3 "e" "e@x"] 3)
  /\ p6 = started (mkDatabase [] 3)
  /\ p7 = started (mkDatabase [mkUser 4 "d" "d@x"] 4).
Proof. repeat split. Qed.

(** The ceiling of the AUTOINCREMENT counter: the last rowid is handed
    out, then [create_user] is answered "database or disk is full", for
    a new email as for one that is taken, and leaves no lock. *)
Example session_ceiling :
  let p0 := started (mkDatabase [] 9223372036854775806) in
  let first := runtime.create_user "a" "a@x" p0 in
  let second := runtime.create_user "b" "b@x" first.2 in
  let third := runtime.create_user "c" "a@x" first.2 in
  first.1 = Return (UserReply "Success"
                      (mkUser 9223372036854775807 "a" "a@x"))
  /\ second = (Return (MessageReply "Error" "database or disk is full"),
               first.2)
  /\ third = (Return (MessageReply "Error" "database or disk is full"),
              first.2)
  /\ leaked first.2 = false.
Proof. repeat split. Qed.

(** [update_user], each time on the seeded table as a new process finds
    it: a partial update, an email held by another user, the user's own
    email, an id that is not there. *)
Example session_updates :
  (update_user 2 (Some "Robert") None seeded).1
  = UpdatedReply "Success" (mkUser 2 "Robert" "bob@example.com")
  /\ update_user 2 None (Some "alice@example.com") seeded
     = (MessageReply "Error"
          "A user with the email 'alice@example.com' already exists.", seeded)
  /\ update_user 2 (Some "Bob Johnson") (Some "bob@example.com") seeded
     = (UpdatedReply "Success" (mkUser 2 "Bob Johnson" "bob@example.com"),
        seeded)
  /\ update_user 7 (Some "Zed") None seeded
     = (MessageReply "Not Found" "User with ID 7 was not found.", seeded).
Proof. repeat split. Qed.

(** ** Facts about the store *)

Section Store.

Implicit Types (db : Database) (rows : list User) (u v : User).

Lemma max_rowid_bound rows v : v ∈ rows -> id v <= max_rowid rows.
Proof.
  induction rows as [|u rows IH]; intros Hin.
  - by apply not_elem_of_nil in Hin.
  - apply elem_of_cons in Hin as [->|Hin]; simpl.
    + apply Z.le_max_l.
    + etransitivity; [by apply IH | apply Z.le_max_r].
Qed.

Lemma next_rowid_fresh db v : v ∈ users db -> id v < next_rowid db.
Proof.
  intros Hin%max_rowid_bound. unfold next_rowid. lia.
Qed.

(** A row whose rowid exceeds all others lands at the end of the scan. *)
Lemma btree_insert_last u rows :
  Forall (fun v => id_lt v u) rows -> btree_insert u rows = rows ++ [u].
Proof.
  induction 1 as [|v rows Hv _ IH]; simpl; [done|].
  unfold id_lt in Hv. rewrite decide_False by lia. by rewrite IH.
Qed.

Lemma sql_insert_duplicate n e db :
  e ∈ email <$> users db -> sql_insert n e db = inl IntegrityError.
Proof. intros He. unfold sql_insert. by rewrite decide_True. Qed.

Lemma sql_insert_new n e db :
  e ∉ email <$> users db ->
  sql_insert n e db
  = inr (next_rowid db,
         {| users := users db ++ [mkUser (next_rowid db) n e];
            sqlite_sequence := next_rowid db |}).
Proof.
  intros He. unfold sql_insert. rewrite decide_False by done.
  rewrite btree_insert_last; [done|].
  apply Forall_forall. intros v Hv. by apply next_rowid_fresh.
Qed.

Lemma sql_insert_valid n e db i db' :
  valid_db db -> sql_insert n e db = inr (i, db') -> valid_db db'.
Proof.
  intros [Hkey Huniq] Hins.
  destruct (decide (e ∈ email <$> users db)) as [He|He].
  - by rewrite sql_insert_duplicate in Hins.
  - rewrite sql_insert_new in Hins by done. injection Hins as <- <-.
    split; simpl.
    + apply StronglySorted_app_2; [|done|repeat constructor].
      intros v w Hv ->%list_elem_of_singleton.
      unfold id_lt; simpl. by apply next_rowid_fresh.
    + rewrite fmap_app. apply NoDup_app. split; [done|].
      split; [|apply NoDup_singleton].
      intros x Hx ->%list_elem_of_singleton. done.
Qed.

Lemma sql_select_by_id_Some i db u :
  sql_select_by_id i db = Some u -> u ∈ users db /\ id u = i.
Proof.
  intros Hu%head_Some_elem_of. apply list_elem_of_filter in Hu. tauto.
Qed.

Lemma sql_select_by_id_None i db :
  sql_select_by_id i db = None <-> forall u, u ∈ users db -> id u ≠ i.
Proof.
  unfold sql_select_by_id. rewrite head_None. split.
  - intros Hnil u Hu Hid.
    by apply (filter_nil_not_elem_of _ _ u Hnil Hid).
  - intros Hall. apply elem_of_nil_inv. intros u Hu.
    apply list_elem_of_filter in Hu as [Hid Hu]. by eapply Hall.
Qed.

(** Rows other than [i] are untouched by an UPDATE of row [i]. *)
Lemma replace_row_other (i : Z) (w : User) rows :
  (forall v, v ∈ rows -> id v ≠ i) ->
  (fun u => if decide (id u = i) then w else u) <$> rows = rows.
Proof.
  induction rows as [|v rows IH]; intros Hall; [done|].
  rewrite fmap_cons, IH.
  - rewrite decide_False; [done|]. apply Hall. left.
  - intros x Hx. apply Hall. by right.
Qed.

Lemma replace_row_sorted (i : Z) n e rows :
  StronglySorted id_lt rows ->
  StronglySorted id_lt
    ((fun u => if decide (id u = i) then mkUser i n e else u) <$> rows).
Proof.
  apply StronglySorted_fmap. intros u v Huv. unfold id_lt in *.
  repeat case_decide; simpl; lia.
Qed.

Lemma replace_row_unique (i : Z) n e rows :
  StronglySorted id_lt rows ->
  NoDup (email <$> rows) ->
  ¬ Exists (fun v => id v ≠ i /\ email v = e) rows ->
  NoDup (email <$>
    ((fun u => if decide (id u = i) then mkUser i n e else u) <$> rows)).
Proof.
  induction 1 as [|u rows Hs IH Hu]; intros Huniq Hfree; [constructor|].
  rewrite !fmap_cons in *. apply NoDup_cons in Huniq as [Hu_new Huniq].
  rewrite Exists_cons in Hfree.
  case_decide as Hid.
  - rewrite replace_row_other.
    + apply NoDup_cons. split; [|done]. simpl.
      intros (v & Hev & Hv)%list_elem_of_fmap.
      apply Hfree. right. apply Exists_exists. exists v.
      split; [done|]. split; [|done].
      eapply Forall_forall in Hu; [|done]. unfold id_lt in Hu. lia.
    + intros v Hv. eapply Forall_forall in Hu; [|done].
      unfold id_lt in Hu. lia.
  - apply NoDup_cons. split; [|by apply IH; [|tauto]].
    intros (w & Hew & (v & -> & Hv)%list_elem_of_fmap)%list_elem_of_fmap.
    case_decide; simpl in Hew.
    + apply Hfree. by left.
    + apply Hu_new. apply list_elem_of_fmap. by exists v.
Qed.

Lemma sql_update_valid n e i db k db' :
  valid_db db -> sql_update n e i db = inr (k, db') -> valid_db db'.
Proof.
  intros [Hkey Huniq]. unfold sql_update.
  case_decide; [by intros [= _ <-]|].
  case_decide as Hfree; [done|]. intros [= _ <-]. split; simpl.
  - by apply replace_row_sorted.
  - by apply replace_row_unique.
Qed.

Lemma sql_delete_valid i db : valid_db db -> valid_db (sql_delete i db).2.
Proof.
  intros [Hkey Huniq]. split; simpl.
  - induction Hkey as [|u rows Hs IH Hu]; [constructor|].
    rewrite filter_cons. case_decide; [|by apply IH, (NoDup_cons_1_2 _ _ Huniq)].
    constructor; [by apply IH, (NoDup_cons_1_2 _ _ Huniq)|].
    apply Forall_forall. intros v [_ Hv]%list_elem_of_filter.
    by eapply Forall_forall in Hu.
  - apply (sublist_NoDup _ (email <$> users db)); [done|].
    apply fmap_sublist, sublist_filter.
Qed.

Lemma sql_select_by_id_elem db u :
  StronglySorted id_lt (users db) ->
  u ∈ users db -> sql_select_by_id (id u) db = Some u.
Proof.
  unfold sql_select_by_id.
  induction 1 as [|w rows Hs IH Hw]; intros Hu.
  - by apply elem_of_nil in Hu.
  - apply elem_of_cons in Hu as [->|Hu].
    + by rewrite filter_cons_True.
    + rewrite filter_cons_False; [by apply IH|].
      eapply Forall_forall in Hw; [|done]. unfold id_lt in Hw. lia.
Qed.

Lemma sql_select_by_id_is_Some i db u :
  u ∈ users db -> id u = i -> is_Some (sql_select_by_id i db).
Proof.
  intros Hu Hid. destruct (sql_select_by_id i db) eqn:Hsel; [done|].
  rewrite sql_select_by_id_None in Hsel. by destruct (Hsel u Hu).
Qed.

Lemma sql_update_collision n e i db :
  is_Some (sql_select_by_id i db) ->
  Exists (fun v => id v ≠ i /\ email v = e) (users db) ->
  sql_update n e i db = inl IntegrityError.
Proof.
  intros Hsel Hex. unfold sql_update.
  rewrite decide_False; [by rewrite decide_True|].
  intros Hnil. apply head_None in Hnil.
  unfold sql_select_by_id in Hsel. rewrite Hnil in Hsel. by destruct Hsel.
Qed.

Lemma sql_update_free n e i db :
  is_Some (sql_select_by_id i db) ->
  ¬ Exists (fun v => id v ≠ i /\ email v = e) (users db) ->
  exists k, (0 < k)%nat /\
    sql_update n e i db
    = inr (k, {| users := (fun u => if decide (id u = i) then mkUser i n e
                                    else u) <$> users db;
                 sqlite_sequence := sqlite_sequence db |}).
Proof.
  intros Hsel Hfree. unfold sql_update, sql_select_by_id in *.
  destruct (filter _ (users db)) as [|w matched] eqn:Hm.
  - by destruct Hsel.
  - rewrite decide_False by done. rewrite decide_False by done.
    exists (length (w :: matched)). split; [simpl; lia|done].
Qed.

(** Reading row [i] back after an UPDATE of row [i]. *)
Lemma sql_select_by_id_replaced i n e db :
  is_Some (sql_select_by_id i db) ->
  sql_select_by_id i
    {| users := (fun u => if decide (id u = i) then mkUser i n e else u)
                <$> users db;
       sqlite_sequence := sqlite_sequence db |}
  = Some (mkUser i n e).
Proof.
  unfold sql_select_by_id. simpl.
  induction (users db) as [|w rows IH]; intros Hsel.
  - by destruct Hsel.
  - rewrite fmap_cons. destruct (decide (id w = i)) as [Hid|Hid].
    + by rewrite filter_cons_True.
    + rewrite filter_cons_False by done. apply IH.
      by rewrite filter_cons_False in Hsel.
Qed.

Lemma sql_delete_missing i db :
  sql_select_by_id i db = None -> sql_delete i db = (0%nat, db).
Proof.
  intros Hnone. pose proof Hnone as Hall.
  rewrite sql_select_by_id_None in Hall.
  apply head_None in Hnone. unfold sql_delete. rewrite Hnone. simpl.
  f_equal. destruct db as [rows q]. simpl in *. f_equal.
  clear Hnone. induction rows as [|w rows IH]; [done|].
  rewrite filter_cons_True by (apply Hall; left).
  f_equal. apply IH. intros u Hu. apply Hall. by right.
Qed.

Lemma sql_select_by_id_deleted i db :
  sql_select_by_id i (sql_delete i db).2 = None.
Proof.
  apply sql_select_by_id_None. simpl.
  by intros u [Hid _]%list_elem_of_filter.
Qed.

(** Every generated rowid is positive. *)
Lemma next_rowid_positive db : 1 <= next_rowid db.
Proof.
  unfold next_rowid.
  assert (0 <= max_rowid (users db)); [|lia].
  induction (users db) as [|w rows IH]; simpl; lia.
Qed.

Lemma next_rowid_snoc rows i n e q :
  Forall (fun v => id v < i) rows -> 0 <= i -> q <= i ->
  next_rowid {| users := rows ++ [mkUser i n e]; sqlite_sequence := q |}
  = i + 1.
Proof.
  intros Hrows Hi Hq. unfold next_rowid. simpl.
  assert (max_rowid (rows ++ [mkUser i n e]) = i) as ->; [|lia].
  induction Hrows as [|w rows Hw _ IH]; simpl; lia.
Qed.

End Store.

(** ** Facts about the tools *)

Section Tools.

Implicit Types (db : Database) (rows : list User) (u v : User).

Lemma create_user_duplicate n e db :
  e ∈ email <$> users db ->
  create_user n e db = (MessageReply "Error" (already_exists e), db).
Proof.
  intros He. unfold create_user. by rewrite sql_insert_duplicate.
Qed.

Lemma create_user_new n e db :
  e ∉ email <$> users db ->
  create_user n e db
  = (UserReply "Success" (mkUser (next_rowid db) n e),
     {| users := users db ++ [mkUser (next_rowid db) n e];
        sqlite_sequence := next_rowid db |}).
Proof.
  intros He. unfold create_user. by rewrite sql_insert_new.
Qed.

(** After [create_user] the email is in the table, whatever the reply. *)
Lemma create_user_email_present n e db :
  e ∈ email <$> users (create_user n e db).2.
Proof.
  destruct (decide (e ∈ email <$> users db)) as [He|He].
  - by rewrite create_user_duplicate.
  - rewrite create_user_new by done. simpl.
    rewrite fmap_app, elem_of_app. right. simpl. left.
Qed.

Lemma create_user_valid n e db :
  valid_db db -> valid_db (create_user n e db).2.
Proof.
  intros Hv. unfold create_user.
  destruct (sql_insert n e db) as [[]|[i db']] eqn:Hins; simpl; try done.
  by eapply sql_insert_valid.
Qed.

Lemma read_user_state i db : (read_user i db).2 = db.
Proof. unfold read_user. by destruct (sql_select_by_id i db). Qed.

Lemma read_user_found i db u :
  sql_select_by_id i db = Some u ->
  read_user i db = (UserReply "Success" u, db).
Proof. intros Hu. unfold read_user. by rewrite Hu. Qed.

Lemma read_user_missing i db :
  sql_select_by_id i db = None ->
  read_user i db
  = (MessageReply "Not Found"
       ("User with ID " +:+ pretty i +:+ " was not found."), db).
Proof. intros Hu. unfold read_user. by rewrite Hu. Qed.

Lemma update_user_valid i n e db :
  valid_db db -> valid_db (update_user i n e db).2.
Proof.
  intros Hv. unfold update_user, read_user.
  case_decide; [done|].
  destruct (sql_select_by_id i db) as [cur|]; simpl; [|done].
  destruct (sql_update _ _ i db) as [[]|[k db']] eqn:Hupd; simpl; try done.
  apply sql_update_valid in Hupd; [|done]. by case_decide.
Qed.

Lemma delete_user_state i db : (delete_user i db).2 = (sql_delete i db).2.
Proof. unfold delete_user. simpl. by case_decide. Qed.

Lemma populate_loop_valid todo created db :
  valid_db db -> valid_db (populate_loop todo created db).2.
Proof.
  revert created db. induction todo as [|[n e] todo IH];
    intros created db Hv; simpl; [done|].
  pose proof (create_user_valid n e db Hv) as Hv'.
  destruct (create_user n e db) as [result db']. simpl in Hv'.
  case_decide; by apply IH.
Qed.

Lemma populate_database_valid db :
  valid_db db -> valid_db (populate_database db).2.
Proof.
  intros Hv. unfold populate_database, list_users, sql_select_all.
  case_decide; [done|].
  pose proof (populate_loop_valid sample_users [] db Hv) as Hv'.
  by destruct (populate_loop sample_users [] db).
Qed.

Lemma call_valid t db : valid_db db -> valid_db (call t db).
Proof.
  intros Hv. destruct t; unfold call; simpl.
  - by apply create_user_valid.
  - by rewrite read_user_state.
  - by apply update_user_valid.
  - rewrite delete_user_state. by apply sql_delete_valid.
  - done.
  - split; simpl; constructor.
  - by apply populate_database_valid.
Qed.

Lemma reachable_valid db : reachable db -> valid_db db.
Proof.
  induction 1 as [|t db _ IH].
  - split; simpl; constructor.
  - by apply call_valid.
Qed.

Lemma update_user_collision i n e db cur :
  ¬ (n = None /\ e = None) ->
  sql_select_by_id i db = Some cur ->
  Exists (fun v => id v ≠ i /\ email v = default (email cur) e) (users db) ->
  update_user i n e db
  = (MessageReply "Error" (already_exists (default (email cur) e)), db).
Proof.
  intros Hargs Hsel Hex. unfold update_user.
  rewrite decide_False by done. rewrite (read_user_found _ _ _ Hsel). simpl.
  rewrite sql_update_collision; by rewrite ?Hsel.
Qed.

Lemma update_user_free i n e db cur :
  ¬ (n = None /\ e = None) ->
  sql_select_by_id i db = Some cur ->
  ¬ Exists (fun v => id v ≠ i /\ email v = default (email cur) e) (users db) ->
  let merged := mkUser i (default (name cur) n) (default (email cur) e) in
  update_user i n e db
  = (UpdatedReply "Success" merged,
     {| users := (fun u => if decide (id u = i) then merged else u)
                 <$> users db;
        sqlite_sequence := sqlite_sequence db |}).
Proof.
  intros Hargs Hsel Hfree merged. unfold update_user.
  rewrite decide_False by done. rewrite (read_user_found _ _ _ Hsel). simpl.
  destruct (sql_update_free (default (name cur) n) (default (email cur) e)
              i db) as (k & Hk & ->); [by rewrite Hsel|done|].
  by rewrite decide_True.
Qed.

Lemma delete_user_missing i db :
  sql_select_by_id i db = None ->
  delete_user i db
  = (MessageReply "Not Found"
       ("User with ID " +:+ pretty i +:+
        " not found, so nothing was deleted."), db).
Proof.
  intros Hnone. unfold delete_user. by rewrite sql_delete_missing.
Qed.

Lemma delete_user_found i db :
  is_Some (sql_select_by_id i db) ->
  delete_user i db
  = (MessageReply "Success"
       ("User with ID " +:+ pretty i +:+ " was deleted successfully."),
     (sql_delete i db).2).
Proof.
  intros Hsel. unfold delete_user, sql_delete, sql_select_by_id in *.
  destruct (filter _ (users db)) as [|w matched]; [by destruct Hsel|].
  case_decide as Hk; [done|]. simpl in Hk. lia.
Qed.

Lemma populate_loop_step n e rest created db :
  e ∉ email <$> users db ->
  populate_loop ((n, e) :: rest) created db
  = populate_loop rest (created ++ [mkUser (next_rowid db) n e])
      {| users := users db ++ [mkUser (next_rowid db) n e];
         sqlite_sequence := next_rowid db |}.
Proof. intros He. simpl. by rewrite create_user_new. Qed.

Lemma populate_database_skips db :
  users db ≠ [] ->
  populate_database db
  = (SkippedReply "Skipped"
       ("Database already contains " +:+ pretty (length (users db)) +:+
        " users. No sample data added.")
       (length (users db)), db).
Proof.
  intros Hne. unfold populate_database, list_users, sql_select_all.
  by rewrite decide_True.
Qed.

End Tools.

(** ** Properties of the tools *)

(** An email is not among the emails of an explicit list of rows. *)
Ltac fresh_email :=
  simpl; rewrite ?not_elem_of_cons; repeat split;
  try discriminate; apply not_elem_of_nil.

Section Properties.

Implicit Types (db : Database) (rows : list User) (u v : User).

Lemma unique_email_count e rows :
  NoDup (email <$> rows) ->
  e ∈ email <$> rows ->
  length (filter (fun u => email u = e) rows) = 1%nat.
Proof.
  induction rows as [|u rows IH]; intros Huniq He.
  - by apply elem_of_nil in He.
  - rewrite fmap_cons in *. apply NoDup_cons in Huniq as [Hu Huniq].
    rewrite filter_cons. case_decide as Heq.
    + subst e. simpl. f_equal. apply length_zero_iff_nil, elem_of_nil_inv.
      intros v [Hv Hin]%list_elem_of_filter.
      apply Hu, list_elem_of_fmap. by exists v.
    + apply elem_of_cons in He as [?|He]; [done|]. by apply IH.
Qed.

Lemma create_then_read_empty (n e : string) (q : Z) :
  let db0 := {| users := []; sqlite_sequence := q |} in
  let new_user := mkUser (next_rowid db0) n e in
  let db1 := {| users := [new_user]; sqlite_sequence := next_rowid db0 |} in
  create_user n e db0 = (UserReply "Success" new_user, db1)
  /\ read_user (id new_user) db1 = (UserReply "Success" new_user, db1).
Proof.
  intros db0 new_user db1. split.
  - rewrite create_user_new; [done|]. simpl. apply not_elem_of_nil.
  - apply read_user_found. unfold sql_select_by_id, db1. simpl.
    by rewrite filter_cons_True.
Qed.

(** C1: on a fresh table, and on any empty table, [create_user] succeeds
    and returns the user with the given name and email and a generated id
    (1 on a fresh table, one more than the AUTOINCREMENT counter
    otherwise); [read_user] on that id then returns the same user. *)
Theorem create_then_read (n e : string) :
  (let new_user := mkUser 1 n e in
   let db1 := {| users := [new_user]; sqlite_sequence := 1 |} in
   create_user n e (create_table None) = (UserReply "Success" new_user, db1)
   /\ read_user 1 db1 = (UserReply "Success" new_user, db1))
  /\ (forall q : Z,
       let db0 := {| users := []; sqlite_sequence := q |} in
       let new_user := mkUser (next_rowid db0) n e in
       let db1 := {| users := [new_user];
                     sqlite_sequence := next_rowid db0 |} in
       create_user n e db0 = (UserReply "Success" new_user, db1)
       /\ read_user (id new_user) db1 = (UserReply "Success" new_user, db1)).
Proof.
  split.
  - exact (create_then_read_empty n e 0).
  - exact (create_then_read_empty n e).
Qed.

(** C4 fails as stated: giving Bob the email of Alice is refused, and
    nothing is written. *)
Lemma update_always_merges_refuted :
  ¬ update_always_merges 2 None (Some "alice@example.com") seeded.
Proof.
  intros Hclaim.
  destruct (Hclaim (mkUser 2 "Bob Johnson" "bob@example.com")) as [Hreply _].
  - reflexivity.
  - by intros [_ ?].
  - vm_compute in Hreply. discriminate Hreply.
Qed.

(** C5: [update_user] called with neither name nor email replies with the
    invalid-argument error and leaves the whole table as it was, for
    every id and every state. *)
Theorem update_without_fields (i : Z) db :
  InvalidArgument (update_user i None None db).1
  /\ (update_user i None None db).2 = db
  /\ (read_user i (update_user i None None db).2).1 = (read_user i db).1.
Proof. by unfold update_user; rewrite decide_True. Qed.

(** C6: on an empty table [populate_database] inserts the five sample
    users, with consecutive generated ids, and reports success with count
    5; on a non-empty table it changes nothing and reports the number of
    users present, so calling it any number of times once a user exists
    leaves the table as it is. *)
Theorem populate_database_idempotent db :
  (users db = [] ->
     let i := next_rowid db in
     let created := [ mkUser i "Alice Smith" "alice@example.com";
                      mkUser (i + 1) "Bob Johnson" "bob@example.com";
                      mkUser (i + 2) "Charlie Lee" "charlie@example.com";
                      mkUser (i + 3) "Dana White" "dana@example.com";
                      mkUser (i + 4) "Eve Black" "eve@example.com" ] in
     populate_database db
     = (PopulatedReply "Success" "Database populated with 5 sample users."
          created 5,
        {| users := created; sqlite_sequence := i + 4 |}))
  /\ (users db ≠ [] ->
     populate_database db
     = (SkippedReply "Skipped"
          ("Database already contains " +:+ pretty (length (users db)) +:+
           " users. No sample data added.")
          (length (users db)), db))
  /\ (users db ≠ [] ->
     forall k : nat, Nat.iter k (call PopulateDatabase) db = db).
Proof.
  split; [|split].
  - intros Hempty i created.
    pose proof (next_rowid_positive db) as Hi. fold i in Hi.
    unfold populate_database, list_users, sql_select_all.
    rewrite Hempty. rewrite decide_False by (by intros ?).
    unfold sample_users.
    rewrite populate_loop_step by (rewrite Hempty; apply not_elem_of_nil).
    fold i. rewrite Hempty.
    do 4 (rewrite populate_loop_step by fresh_email;
          rewrite next_rowid_snoc by (simpl; repeat constructor; simpl; lia)).
    simpl.
    replace (i + 1 + 1) with (i + 2) by lia.
    replace (i + 2 + 1) with (i + 3) by lia.
    replace (i + 3 + 1) with (i + 4) by lia.
    done.
  - apply populate_database_skips.
  - intros Hne k. induction k as [|k IH]; [done|].
    simpl. rewrite IH. unfold call. simpl.
    by rewrite populate_database_skips.
Qed.

(** C8: in every reachable state [list_users] returns the users of the
    table, each user that [read_user] can find and no other, in increasing
    order of id, and leaves the table as it is. *)
Theorem list_users_ascending db :
  reachable db ->
  let listed := (list_users db).1 in
  (forall u, u ∈ listed <-> read_user (id u) db = (UserReply "Success" u, db))
  /\ StronglySorted id_lt listed
  /\ (list_users db).2 = db.
Proof.
  intros [Hkey Huniq]%reachable_valid listed. split; [|done].
  intros u. unfold listed, list_users, sql_select_all. simpl. split.
  - intros Hu. apply read_user_found. by apply sql_select_by_id_elem.
  - unfold read_user.
    destruct (sql_select_by_id (id u) db) as [w|] eqn:Hsel; [|done].
    intros [= ->]. by apply sql_select_by_id_Some in Hsel as [? _].
Qed.

(** C10: whenever a tool replies with an error variant (status "Error"
    or "Not Found"), the database after the call is the database before
    it. *)
Theorem errors_change_nothing (t : Tool) db (r : Reply) :
  (invoke t db).1 = Dict r -> is_error r -> (invoke t db).2 = db.
Proof.
  destruct t; simpl; intros [= <-] Herr.
  - unfold create_user in *.
    destruct (sql_insert n e db) as [[]|[]]; [done..|].
    by destruct Herr.
  - apply read_user_state.
  - destruct (decide (n = None /\ e = None)) as [Hargs|Hargs].
    { unfold update_user. by rewrite decide_True. }
    destruct (sql_select_by_id user_id db) as [cur|] eqn:Hsel.
    + destruct (decide (Exists (fun v => id v ≠ user_id
                                  /\ email v = default (email cur) e)
                          (users db))) as [Htaken|Hfree].
      * by rewrite (update_user_collision user_id n e db cur).
      * rewrite (update_user_free user_id n e db cur) in Herr by done.
        by destruct Herr.
    + unfold update_user. rewrite decide_False by done.
      by rewrite read_user_missing.
  - destruct (sql_select_by_id user_id db) eqn:Hsel.
    + rewrite delete_user_found in Herr by done. by destruct Herr.
    + by rewrite delete_user_missing.
  - by destruct Herr.
  - unfold populate_database, list_users, sql_select_all in *.
    case_decide; [by destruct Herr|].
    destruct (populate_loop sample_users [] db). by destruct Herr.
Qed.

End Properties.

(** ** The properties at concrete tables *)

Section Instances.

Lemma create_table_valid : valid_db (create_table None).
Proof. split; constructor. Defined.

Lemma seeded_reachable : reachable seeded.
Proof. exact (reachable_call PopulateDatabase _ reachable_new). Defined.

(** C6 on a new file and on the seeded table. *)
Lemma populate_database_idempotent_seeded :
  (users (create_table None) = []
   /\ (populate_database (create_table None)).1
      = PopulatedReply "Success" "Database populated with 5 sample users."
          (users seeded) 5
   /\ length (users seeded) = 5%nat)
  /\ (users seeded ≠ []
      /\ populate_database seeded
         = (SkippedReply "Skipped"
              "Database already contains 5 users. No sample data added." 5,
            seeded)).
Proof.
  split.
  - split; [reflexivity|]. split; [|reflexivity].
    exact (f_equal fst
             (proj1 (populate_database_idempotent (create_table None))
                eq_refl)).
  - assert (users seeded ≠ []) as Hne by discriminate.
    split; [exact Hne|].
    exact (proj1 (proj2 (populate_database_idempotent seeded)) Hne).
Defined.

(** C8 on the seeded table. *)
Lemma list_users_ascending_seeded :
  reachable seeded
  /\ let listed := (list_users seeded).1 in
     (forall u, u ∈ listed
                <-> read_user (id u) seeded = (UserReply "Success" u, seeded))
     /\ StronglySorted id_lt listed
     /\ (list_users seeded).2 = seeded.
Proof.
  split; [exact seeded_reachable|].
  exact (list_users_ascending seeded seeded_reachable).
Defined.

(** C10 on the seeded table: a refused [create_user]. *)
Lemma errors_change_nothing_seeded :
  let t := CreateUser "Bob" "alice@example.com" in
  let r := MessageReply "Error"
             "A user with the email 'alice@example.com' already exists." in
  (invoke t seeded).1 = Dict r
  /\ is_error r
  /\ (invoke t seeded).2 = seeded.
Proof.
  intros t r.
  assert (is_error r) as Herr by (left; reflexivity).
  split; [reflexivity|]. split; [exact Herr|].
  exact (errors_change_nothing t seeded r eq_refl Herr).
Defined.

End Instances.

(** ** More about the tools of [agent/tools/tools.py] *)

Section MoreTools.

Implicit Types (db : Database) (rows : list User) (u v w : User).

(** The reply of [read_user] depends on the row found only. *)
Lemma read_user_reply i db db' :
  sql_select_by_id i db' = sql_select_by_id i db ->
  (read_user i db').1 = (read_user i db).1.
Proof.
  intros Hsel. unfold read_user. rewrite Hsel.
  by destruct (sql_select_by_id i db).
Qed.

Lemma create_user_success n e db s w :
  (create_user n e db).1 = UserReply s w ->
  (e ∉ email <$> users db) /\ w = mkUser (next_rowid db) n e.
Proof.
  destruct (decide (e ∈ email <$> users db)) as [He|He].
  - by rewrite create_user_duplicate.
  - rewrite create_user_new by done. by intros [= _ <-].
Qed.

Lemma sql_select_by_id_snoc i db w q :
  (forall v, v ∈ users db -> id v ≠ id w) ->
  sql_select_by_id i {| users := users db ++ [w]; sqlite_sequence := q |}
  = if decide (id w = i) then Some w else sql_select_by_id i db.
Proof.
  intros Hfresh. unfold sql_select_by_id. simpl. rewrite filter_app.
  case_decide as Hid.
  - assert (filter (fun u => id u = i) (users db) = []) as ->.
    { apply elem_of_nil_inv. intros v [Hv Hin]%list_elem_of_filter.
      apply (Hfresh v Hin). congruence. }
    by rewrite filter_cons_True.
  - rewrite (filter_cons_False _ w) by done.
    by rewrite filter_nil, app_nil_r.
Qed.

Lemma create_user_below_sequence n e db :
  below_sequence db -> below_sequence (create_user n e db).2.
Proof.
  intros Hb. destruct (decide (e ∈ email <$> users db)) as [He|He].
  - by rewrite create_user_duplicate.
  - rewrite create_user_new by done. intros u. simpl.
    intros [Hu| ->%list_elem_of_singleton]%elem_of_app; simpl; [|lia].
    apply next_rowid_fresh in Hu. lia.
Qed.

Lemma create_user_sequence n e db :
  sqlite_sequence db <= sqlite_sequence (create_user n e db).2.
Proof.
  destruct (decide (e ∈ email <$> users db)) as [He|He].
  - by rewrite create_user_duplicate.
  - rewrite create_user_new by done. simpl. unfold next_rowid. lia.
Qed.

Lemma populate_loop_below_sequence todo created db :
  below_sequence db ->
  below_sequence (populate_loop todo created db).2
  /\ sqlite_sequence db <= sqlite_sequence (populate_loop todo created db).2.
Proof.
  revert created db. induction todo as [|[n e] todo IH];
    intros created db Hb; simpl; [done|].
  pose proof (create_user_below_sequence n e db Hb) as Hb'.
  pose proof (create_user_sequence n e db) as Hq.
  destruct (create_user n e db) as [result db1]. simpl in *.
  case_decide.
  - destruct (IH (created ++ option_list (user result)) db1 Hb').
    split; [done|lia].
  - destruct (IH created db1 Hb'). split; [done|lia].
Qed.

Lemma update_user_below_sequence i n e db :
  below_sequence db ->
  below_sequence (update_user i n e db).2
  /\ sqlite_sequence (update_user i n e db).2 = sqlite_sequence db.
Proof.
  intros Hb. unfold update_user, read_user.
  case_decide; [done|].
  destruct (sql_select_by_id i db) as [cur|] eqn:Hsel; simpl; [|done].
  unfold sql_update. case_decide; [done|]. case_decide; [done|].
  case_decide; simpl.
  all: split; [|done].
  all: intros u (v & -> & Hv)%list_elem_of_fmap; simpl.
  all: case_decide as Hid; simpl; [rewrite <- Hid|]; by apply Hb.
Qed.

Lemma call_below_sequence t db :
  below_sequence db ->
  below_sequence (call t db)
  /\ sqlite_sequence db <= sqlite_sequence (call t db).
Proof.
  intros Hb. destruct t; unfold call; simpl.
  - split; [by apply create_user_below_sequence|apply create_user_sequence].
  - by rewrite read_user_state.
  - destruct (update_user_below_sequence user_id n e db Hb) as [? ->].
    done.
  - rewrite delete_user_state. simpl. split; [|done].
    intros u [_ Hu]%list_elem_of_filter. by apply Hb.
  - done.
  - split; [|done]. intros u Hu. by apply elem_of_nil in Hu.
  - unfold populate_database, list_users, sql_select_all.
    case_decide; [done|].
    pose proof (populate_loop_below_sequence sample_users [] db Hb).
    by destruct (populate_loop sample_users [] db).
Qed.

Lemma run_below_sequence ts db :
  below_sequence db ->
  below_sequence (run ts db)
  /\ sqlite_sequence db <= sqlite_sequence (run ts db).
Proof.
  revert db. induction ts as [|t ts IH]; intros db Hb; simpl; [done|].
  destruct (call_below_sequence t db Hb) as [Hb' Hq].
  destruct (IH (call t db) Hb') as [? ?]. split; [done|lia].
Qed.

Lemma reachable_below_sequence db : reachable db -> below_sequence db.
Proof.
  induction 1 as [|t db _ IH].
  - intros u Hu. by apply elem_of_nil in Hu.
  - by apply call_below_sequence.
Qed.

(** X2: ids are never handed out twice.  If a user is in the table of a
    reachable state, then after any further sequence of tool calls, also
    ones that delete that user or all users, a successful [create_user]
    returns an id greater than that user's. *)
Theorem ids_never_reused db u (ts : list Tool) (n e : string) w :
  reachable db ->
  u ∈ users db ->
  (create_user n e (run ts db)).1 = UserReply "Success" w ->
  id u < id w.
Proof.
  intros Hb%reachable_below_sequence Hu [_ ->]%create_user_success.
  destruct (run_below_sequence ts db Hb) as [_ Hq].
  specialize (Hb u Hu). simpl. unfold next_rowid. lia.
Qed.

Lemma update_user_missing i n e db :
  ¬ (n = None /\ e = None) ->
  sql_select_by_id i db = None ->
  update_user i n e db = read_user i db.
Proof.
  intros Hargs Hsel. unfold update_user. rewrite decide_False by done.
  by rewrite read_user_missing.
Qed.

Lemma string_app_inj (s a b : string) : s +:+ a = s +:+ b -> a = b.
Proof. induction s as [|c s IH]; simpl; [done|]. intros [= ?]. by apply IH. Qed.

Lemma update_user_success i n e db w :
  (update_user i n e db).1 = UpdatedReply "Success" w ->
  exists cur,
    sql_select_by_id i db = Some cur
    /\ w = merged_user i n e cur
    /\ (update_user i n e db).2
       = {| users := (fun u => if decide (id u = i) then w else u)
                     <$> users db;
            sqlite_sequence := sqlite_sequence db |}.
Proof.
  destruct (decide (n = None /\ e = None)) as [Hargs|Hargs].
  { unfold update_user. by rewrite decide_True. }
  destruct (sql_select_by_id i db) as [cur|] eqn:Hsel.
  - destruct (decide (Exists (fun v => id v ≠ i
                                /\ email v = default (email cur) e)
                        (users db))) as [Htaken|Hfree].
    + by rewrite (update_user_collision i n e db cur).
    + rewrite (update_user_free i n e db cur) by done. simpl.
      intros [= <-]. by exists cur.
  - by rewrite update_user_missing, read_user_missing.
Qed.

Lemma sql_select_by_id_replaced_other i j w db :
  id w = i -> j ≠ i ->
  sql_select_by_id j
    {| users := (fun u => if decide (id u = i) then w else u) <$> users db;
       sqlite_sequence := sqlite_sequence db |}
  = sql_select_by_id j db.
Proof.
  intros Hw Hj. unfold sql_select_by_id. simpl. f_equal.
  induction (users db) as [|v rows IH]; [done|].
  rewrite fmap_cons, !filter_cons, IH.
  destruct (decide (id v = i)) as [Hv|Hv]; [|done].
  rewrite !decide_False by congruence. done.
Qed.

(** X4: a successful [update_user] changes the addressed row only: the
    returned user has the id asked for, the ids in the table and the
    AUTOINCREMENT counter are as before, and every other id reads as
    before. *)
Theorem update_user_only_that_row (i : Z) (n e : option string) db w :
  (update_user i n e db).1 = UpdatedReply "Success" w ->
  let db' := (update_user i n e db).2 in
  id w = i
  /\ id <$> users db' = id <$> users db
  /\ sqlite_sequence db' = sqlite_sequence db
  /\ (forall j, j ≠ i -> (read_user j db').1 = (read_user j db).1).
Proof.
  intros (cur & Hsel & -> & Hdb)%update_user_success db'.
  unfold db'. rewrite Hdb. simpl. repeat split.
  - rewrite <- list_fmap_compose. apply list_fmap_ext.
    intros k u _. simpl. by case_decide.
  - intros j Hj. apply read_user_reply.
    by apply sql_select_by_id_replaced_other.
Qed.

Lemma sql_select_by_id_delete_other i j db :
  j ≠ i -> sql_select_by_id j (sql_delete i db).2 = sql_select_by_id j db.
Proof.
  intros Hj. unfold sql_select_by_id. simpl. f_equal.
  induction (users db) as [|v rows IH]; [done|].
  rewrite (filter_cons (fun u => id u ≠ i)).
  destruct (decide (id v ≠ i)) as [Hv|Hv].
  - by rewrite !filter_cons, IH.
  - rewrite IH, (filter_cons_False _ v); [done|].
    apply dec_stable in Hv. congruence.
Qed.

Lemma key_matches_once i rows :
  StronglySorted id_lt rows ->
  (length (filter (fun u => id u = i) rows) <= 1)%nat.
Proof.
  induction 1 as [|v rows Hs IH Hv]; [simpl; lia|].
  rewrite filter_cons. case_decide as Hid; [|done].
  assert (filter (fun u => id u = i) rows = []) as ->; [|simpl; lia].
  apply elem_of_nil_inv. intros u [Hu Hin]%list_elem_of_filter.
  eapply Forall_forall in Hv; [|done]. unfold id_lt in Hv. lia.
Qed.

Lemma filter_split_length (i : Z) rows :
  (length (filter (fun u => id u = i) rows)
   + length (filter (fun u => id u ≠ i) rows))%nat = length rows.
Proof.
  induction rows as [|v rows IH]; [done|].
  rewrite !filter_cons.
  destruct (decide (id v = i)) as [Hv|Hv].
  - rewrite decide_False by (by intros ?). simpl. lia.
  - rewrite decide_True by done. simpl. lia.
Qed.

(** What the DELETE of [delete_user] does to the content of the file:
    every other id reads as before and the AUTOINCREMENT counter is kept;
    when the id is in a table that satisfies the schema constraints,
    exactly one row goes. *)
Lemma delete_user_only_that_row (i : Z) db :
  let db' := (delete_user i db).2 in
  (forall j, j ≠ i -> (read_user j db').1 = (read_user j db).1)
  /\ sqlite_sequence db' = sqlite_sequence db
  /\ (valid_db db -> is_Some (sql_select_by_id i db) ->
      S (length (list_users db').1) = length (list_users db).1).
Proof.
  intros db'. unfold db'. rewrite delete_user_state. repeat split.
  - intros j Hj. apply read_user_reply.
    by apply sql_select_by_id_delete_other.
  - intros [Hkey _] Hsome. simpl. unfold sql_select_all.
    pose proof (key_matches_once i (users db) Hkey) as Hle.
    pose proof (filter_split_length i (users db)) as Hsum.
    unfold sql_select_by_id in Hsome.
    destruct (filter (fun u => id u = i) (users db)) as [|v l];
      [by destruct Hsome|].
    simpl in *. lia.
Qed.

Lemma unique_email_holder rows u v :
  NoDup (email <$> rows) -> u ∈ rows -> v ∈ rows ->
  email u = email v -> u = v.
Proof.
  induction rows as [|w rows IH]; intros Huniq Hu Hv Heq.
  - by apply elem_of_nil in Hu.
  - rewrite fmap_cons in Huniq. apply NoDup_cons in Huniq as [Hw Huniq].
    apply elem_of_cons in Hu as [->|Hu]; apply elem_of_cons in Hv as [->|Hv].
    + done.
    + destruct Hw. rewrite Heq. by apply list_elem_of_fmap_2.
    + destruct Hw. rewrite <- Heq. by apply list_elem_of_fmap_2.
    + by apply IH.
Qed.

(** X8: an update can be undone.  In a table that satisfies the schema
    constraints, after a successful [update_user] of a user, [update_user]
    with the old name and the old email succeeds and gives back the
    table as it was. *)
Theorem update_user_undo (i : Z) (n e : option string) db cur :
  valid_db db ->
  sql_select_by_id i db = Some cur ->
  status (update_user i n e db).1 = "Success" ->
  update_user i (Some (name cur)) (Some (email cur)) (update_user i n e db).2
  = (UpdatedReply "Success" cur, db).
Proof.
  intros [Hkey Huniq] Hsel Hok.
  destruct (sql_select_by_id_Some _ _ _ Hsel) as [Hcur Hid].
  assert (mkUser i (name cur) (email cur) = cur) as Hrecord.
  { destruct cur. simpl in *. by subst. }
  destruct (decide (n = None /\ e = None)) as [Hargs|Hargs].
  { unfold update_user in Hok. by rewrite decide_True in Hok. }
  destruct (decide (Exists (fun v => id v ≠ i
                              /\ email v = default (email cur) e)
                      (users db))) as [Htaken|Hfree].
  { by rewrite (update_user_collision i n e db cur) in Hok. }
  rewrite (update_user_free i n e db cur) by done. simpl.
  set (merged := mkUser i (default (name cur) n) (default (email cur) e)).
  rewrite (update_user_free i _ _ _ merged).
  - simpl. rewrite Hrecord. f_equal. destruct db as [rows q]. simpl in *.
    f_equal. rewrite <- list_fmap_compose.
    etransitivity; [|apply list_fmap_id].
    apply list_fmap_ext. intros k u Hu%list_elem_of_lookup_2. simpl.
    destruct (decide (id u = i)) as [Hu_id|Hu_id]; simpl.
    + rewrite decide_True by done.
      pose proof (sql_select_by_id_elem {| users := rows;
                                           sqlite_sequence := q |} u Hkey Hu)
        as Hsel_u.
      rewrite Hu_id, Hsel in Hsel_u. by injection Hsel_u.
    + by rewrite decide_False.
  - by intros [? _].
  - apply sql_select_by_id_replaced. by rewrite Hsel.
  - simpl. intros (v & (u & -> & Hu)%list_elem_of_fmap & Hv_id & Hv_email)
             %Exists_exists.
    destruct (decide (id u = i)) as [Hu_id|Hu_id]; [done|].
    apply Hu_id. rewrite <- Hid.
    by rewrite (unique_email_holder (users db) u cur).
Qed.

End MoreTools.

(** ** [tools/tools.py], [src/database.py] and start-up *)

Section OtherModules.

Implicit Types (db : Database) (rows : list User) (u v w : User).

Lemma sql_update_missing n e i db :
  sql_select_by_id i db = None -> sql_update n e i db = inr (0%nat, db).
Proof.
  intros Hnone%head_None. unfold sql_update. by rewrite decide_True.
Qed.

(** The INSERT statement fails with [IntegrityError] only. *)
Lemma sql_insert_error n e db ex :
  sql_insert n e db = inl ex -> ex = IntegrityError.
Proof. unfold sql_insert. case_decide; [by intros [= <-]|done]. Qed.

Lemma database_create_user_state n e db :
  (database.create_user n e db).2 = (create_user n e db).2
  /\ exists answer, (database.create_user n e db).1 = Returned answer.
Proof.
  unfold database.create_user, create_user.
  destruct (sql_insert n e db) as [[|msg]|[i db']] eqn:Hins; simpl;
    [by eauto| |by eauto].
  by apply sql_insert_error in Hins.
Qed.

Lemma create_then n e (rest : Call unit) db :
  (database.create_user n e ;; rest) db = rest (create_user n e db).2.
Proof.
  destruct (database_create_user_state n e db) as [Hstate [answer Hans]].
  unfold mbind, Call_bind, and_then.
  destruct (database.create_user n e db) as [outcome db']. simpl in *.
  by subst.
Qed.

Lemma populate_loop_state todo created db :
  (populate_loop todo created db).2
  = foldl (fun d p => (create_user p.1 p.2 d).2) db todo.
Proof.
  revert created db. induction todo as [|[n e] todo IH];
    intros created db; simpl; [done|].
  destruct (create_user n e db) as [result db']. simpl.
  case_decide; apply IH.
Qed.

Lemma populate_db_state db :
  src_agent._populate_db db = (Returned tt, (populate_database db).2).
Proof.
  unfold src_agent._populate_db, populate_database, list_users,
    database.list_users, sql_select_all.
  unfold mbind at 1. unfold Call_bind, and_then.
  destruct (decide (users db = [])) as [Hempty|Hrows].
  - rewrite decide_False by (by intros ?).
    rewrite !create_then.
    pose proof (populate_loop_state sample_users [] db) as Hloop.
    destruct (populate_loop sample_users [] db) as [created db'].
    simpl in *. by rewrite Hloop.
  - by rewrite decide_True.
Qed.

(** Creating one user per pair, when the emails are new and distinct,
    adds the pairs to the table in order. *)
Lemma create_all_pairs (todo : list (string * string)) db :
  NoDup todo.*2 ->
  (forall e, e ∈ todo.*2 -> e ∉ email <$> users db) ->
  (fun u => (name u, email u))
    <$> users (foldl (fun d p => (create_user p.1 p.2 d).2) db todo)
  = ((fun u => (name u, email u)) <$> users db) ++ todo.
Proof.
  revert db. induction todo as [|[n e] todo IH]; intros db Huniq Hnew.
  - simpl. by rewrite app_nil_r.
  - rewrite fmap_cons in Huniq. apply NoDup_cons in Huniq as [He Huniq].
    simpl in *. rewrite create_user_new by (apply Hnew; left).
    rewrite IH; [|done|].
    + simpl. rewrite fmap_app. simpl. by rewrite <- app_assoc.
    + intros e' He'. simpl. rewrite fmap_app, elem_of_app.
      intros [Hold|Hsame%list_elem_of_singleton].
      * by apply (Hnew e'); [right|].
      * simpl in Hsame. by subst.
Qed.

Lemma populate_database_pairs db :
  users db = [] ->
  (fun u => (name u, email u)) <$> users (populate_database db).2
  = sample_users.
Proof.
  intros Hempty. unfold populate_database, list_users, sql_select_all.
  rewrite Hempty. rewrite decide_False by (by intros ?).
  pose proof (populate_loop_state sample_users [] db) as Hloop.
  destruct (populate_loop sample_users [] db) as [created db'].
  cbn -[sample_users foldl] in *. rewrite Hloop, create_all_pairs.
  - by rewrite Hempty.
  - unfold sample_users. simpl. repeat (constructor; [fresh_email|]).
    constructor.
  - intros e _. rewrite Hempty. apply not_elem_of_nil.
Qed.

Lemma populate_database_nonempty db : users (populate_database db).2 ≠ [].
Proof.
  destruct (decide (users db = [])) as [Hempty|Hrows].
  - intros Hnil. pose proof (populate_database_pairs db Hempty) as Hpairs.
    by rewrite Hnil in Hpairs.
  - by rewrite populate_database_skips.
Qed.

(** X13: the [_populate_db] of [src/agent.py] never lets an exception
    escape and leaves the database that [populate_database] of
    [agent/tools/tools.py] leaves: on an empty table the five sample
    names and emails in order, no change otherwise. *)
Theorem src_populate_db_agrees db :
  src_agent._populate_db db = (Returned tt, (populate_database db).2)
  /\ (users db = [] ->
      (fun u => (name u, email u)) <$> users (src_agent._populate_db db).2
      = sample_users)
  /\ (users db ≠ [] -> (src_agent._populate_db db).2 = db).
Proof.
  rewrite populate_db_state. simpl. split; [done|]. split.
  - apply populate_database_pairs.
  - intros Hrows. by rewrite populate_database_skips.
Qed.

Lemma agent_populate_db db :
  exists line,
    agent._populate_db db = (Some line, (populate_database db).2).
Proof.
  unfold agent._populate_db, populate_database, list_users, sql_select_all.
  case_decide; [by eexists|].
  destruct (populate_loop sample_users [] db). by eexists.
Qed.

(** X15: importing [src/agent.py] ends as importing [agent/agent.py]
    does, but for the printed line: the [ValueError] without a key, the
    agent defined with one, and the same database in both cases. *)
Theorem src_import_agrees (key : option string) (file : option Database) :
  (src_agent.import key file).2 = (agent.import key file).2
  /\ (key_missing key = true ->
      (src_agent.import key file).1 = ValueError key_not_found
      /\ (agent.import key file).1 = ValueError key_not_found)
  /\ (key_missing key = false ->
      (src_agent.import key file).1 = Started []
      /\ exists line, (agent.import key file).1 = Started [line]).
Proof.
  unfold src_agent.import, agent.import.
  destruct (agent_populate_db (create_table file)) as [line Hline].
  rewrite populate_db_state, Hline.
  destruct (key_missing key); simpl; repeat split; try done.
  by exists line.
Qed.

End OtherModules.

(** ** The further properties at concrete tables *)

Section MoreInstances.

Lemma seeded_valid : valid_db seeded.
Proof. exact (reachable_valid seeded seeded_reachable). Defined.

Lemma bob_in_seeded :
  mkUser 2 "Bob Johnson" "bob@example.com" ∈ users seeded.
Proof. apply (bool_decide_unpack _). vm_compute. exact I. Defined.

(** X2 on the seeded table: Bob is deleted, then all users, then Bob is
    created again; his new id is above 2. *)
Lemma ids_never_reused_seeded :
  reachable seeded
  /\ mkUser 2 "Bob Johnson" "bob@example.com" ∈ users seeded
  /\ (create_user "Bob Johnson" "bob@example.com"
        (run [DeleteUser 2; DeleteAllUsers] seeded)).1
     = UserReply "Success" (mkUser 6 "Bob Johnson" "bob@example.com")
  /\ 2 < 6.
Proof.
  split; [exact seeded_reachable|]. split; [exact bob_in_seeded|].
  split; [reflexivity|].
  exact (ids_never_reused seeded (mkUser 2 "Bob Johnson" "bob@example.com")
           [DeleteUser 2; DeleteAllUsers] "Bob Johnson" "bob@example.com"
           (mkUser 6 "Bob Johnson" "bob@example.com")
           seeded_reachable bob_in_seeded eq_refl).
Defined.

(** X4 on the seeded table: Bob is renamed. *)
Lemma update_user_only_that_row_seeded :
  (update_user 2 (Some "Robert") None seeded).1
  = UpdatedReply "Success" (mkUser 2 "Robert" "bob@example.com")
  /\ let db' := (update_user 2 (Some "Robert") None seeded).2 in
     id (mkUser 2 "Robert" "bob@example.com") = 2
     /\ id <$> users db' = id <$> users seeded
     /\ sqlite_sequence db' = sqlite_sequence seeded
     /\ (forall j, j ≠ 2 -> (read_user j db').1 = (read_user j seeded).1).
Proof.
  split; [reflexivity|].
  exact (update_user_only_that_row 2 (Some "Robert") None seeded
           (mkUser 2 "Robert" "bob@example.com") eq_refl).
Defined.

(** X8 on the seeded table: Bob's name and email are changed and then
    restored. *)
Lemma update_user_undo_seeded :
  valid_db seeded
  /\ sql_select_by_id 2 seeded
     = Some (mkUser 2 "Bob Johnson" "bob@example.com")
  /\ status (update_user 2 (Some "Robert") (Some "rob@example.com")
               seeded).1 = "Success"
  /\ update_user 2 (Some "Bob Johnson") (Some "bob@example.com")
       (update_user 2 (Some "Robert") (Some "rob@example.com") seeded).2
     = (UpdatedReply "Success" (mkUser 2 "Bob Johnson" "bob@example.com"),
        seeded).
Proof.
  split; [exact seeded_valid|]. split; [reflexivity|].
  split; [reflexivity|].
  exact (update_user_undo 2 (Some "Robert") (Some "rob@example.com") seeded
           (mkUser 2 "Bob Johnson" "bob@example.com")
           seeded_valid eq_refl eq_refl).
Defined.

(** X13 on a new file and on the seeded table. *)
Lemma src_populate_db_agrees_seeded :
  (users (create_table None) = []
   /\ (fun u => (name u, email u))
        <$> users (src_agent._populate_db (create_table None)).2
      = sample_users)
  /\ (users seeded ≠ [] /\ (src_agent._populate_db seeded).2 = seeded).
Proof.
  assert (users seeded ≠ []) as Hrows by discriminate.
  split.
  - split; [reflexivity|].
    exact (proj1 (proj2 (src_populate_db_agrees (create_table None)))
             eq_refl).
  - split; [exact Hrows|].
    exact (proj2 (proj2 (src_populate_db_agrees seeded)) Hrows).
Defined.

(** X15 on a new file: without a key, and with one. *)
Lemma src_import_agrees_new_file :
  (key_missing None = true
   /\ (src_agent.import None None).1 = ValueError key_not_found)
  /\ (key_missing (Some "secret") = false
      /\ (src_agent.import (Some "secret") None).1 = Started []).
Proof.
  split.
  - split; [reflexivity|].
    exact (proj1 (proj1 (proj2 (src_import_agrees None None)) eq_refl)).
  - split; [reflexivity|].
    exact (proj1 (proj2 (proj2 (src_import_agrees (Some "secret") None))
                    eq_refl)).
Defined.

End MoreInstances.

(** ** Facts about the running process *)

Section Running.

Implicit Types (db : Database) (p : Process) (u v w : User).

Lemma execute_insert_unlocked n e p :
  leaked p = false ->
  next_rowid (file p) <= 9223372036854775807 ->
  runtime.execute_insert n e p = runtime.lift (sql_insert n e (file p)).
Proof.
  intros Hleak Hroom. unfold runtime.execute_insert.
  rewrite Hleak. by rewrite decide_False by lia.
Qed.

Lemma runtime_create_user_new n e p :
  leaked p = false ->
  next_rowid (file p) <= 9223372036854775807 ->
  e ∉ email <$> users (file p) ->
  runtime.create_user n e p
  = (Return (UserReply "Success" (mkUser (next_rowid (file p)) n e)),
     {| file := {| users := users (file p)
                            ++ [mkUser (next_rowid (file p)) n e];
                   sqlite_sequence := next_rowid (file p) |};
        leaked := false |}).
Proof.
  intros Hleak Hroom He. unfold runtime.create_user.
  rewrite execute_insert_unlocked, sql_insert_new by done. simpl.
  by rewrite Hleak.
Qed.

Lemma runtime_create_user_duplicate n e p :
  leaked p = false ->
  next_rowid (file p) <= 9223372036854775807 ->
  e ∈ email <$> users (file p) ->
  runtime.create_user n e p
  = (Return (MessageReply "Error" (already_exists e)),
     {| file := file p; leaked := true |}).
Proof.
  intros Hleak Hroom He. unfold runtime.create_user.
  by rewrite execute_insert_unlocked, sql_insert_duplicate.
Qed.

Lemma runtime_create_user_locked n e p :
  leaked p = true ->
  runtime.create_user n e p
  = (Return (MessageReply "Error" "database is locked"), p).
Proof.
  intros Hleak. unfold runtime.create_user, runtime.execute_insert.
  by rewrite Hleak.
Qed.

Lemma runtime_create_user_full n e p :
  leaked p = false ->
  9223372036854775807 < next_rowid (file p) ->
  runtime.create_user n e p
  = (Return (MessageReply "Error" "database or disk is full"), p).
Proof.
  intros Hleak Hfull. unfold runtime.create_user, runtime.execute_insert.
  rewrite Hleak. by rewrite decide_True.
Qed.

(** What [create_user] does to the file, whatever the process. *)
Lemma runtime_create_user_file n e p :
  file (runtime.create_user n e p).2 = file p
  \/ file (runtime.create_user n e p).2 = (create_user n e (file p)).2.
Proof.
  destruct (leaked p) eqn:Hleak.
  { left. by rewrite runtime_create_user_locked. }
  destruct (decide (9223372036854775807 < next_rowid (file p))) as [?|Hroom].
  { left. by rewrite runtime_create_user_full. }
  destruct (decide (e ∈ email <$> users (file p))) as [He|He].
  - left. by rewrite runtime_create_user_duplicate by (done || lia).
  - right. rewrite runtime_create_user_new by (done || lia).
    by rewrite create_user_new.
Qed.

Lemma runtime_read_user_int64 i p :
  int64 i -> runtime.read_user i p = (Return (read_user i (file p)).1, p).
Proof.
  intros Hi. unfold runtime.read_user, runtime.execute_select_by_id, read_user.
  rewrite decide_True by done. by destruct (sql_select_by_id i (file p)).
Qed.

Lemma runtime_read_user_overflow i p :
  ¬ int64 i -> runtime.read_user i p = (Raise too_large, p).
Proof.
  intros Hi. unfold runtime.read_user, runtime.execute_select_by_id.
  by rewrite decide_False.
Qed.

Lemma runtime_read_user_state i p : (runtime.read_user i p).2 = p.
Proof.
  destruct (decide (int64 i)).
  - by rewrite runtime_read_user_int64.
  - by rewrite runtime_read_user_overflow.
Qed.

(** The ending of [read_user] depends on the row found only. *)
Lemma runtime_read_user_ending i p p' :
  sql_select_by_id i (file p') = sql_select_by_id i (file p) ->
  (runtime.read_user i p').1 = (runtime.read_user i p).1.
Proof.
  intros Hsel. destruct (decide (int64 i)).
  - rewrite !runtime_read_user_int64 by done. simpl. f_equal.
    by apply read_user_reply.
  - by rewrite !runtime_read_user_overflow.
Qed.

Lemma runtime_update_user_overflow i n e p :
  ¬ int64 i -> ¬ (n = None /\ e = None) ->
  runtime.update_user i n e p = (Raise too_large, p).
Proof.
  intros Hi Hargs. unfold runtime.update_user.
  rewrite decide_False by done. by rewrite runtime_read_user_overflow.
Qed.

Lemma runtime_update_user_missing i n e p :
  int64 i -> ¬ (n = None /\ e = None) ->
  sql_select_by_id i (file p) = None ->
  runtime.update_user i n e p = runtime.read_user i p.
Proof.
  intros Hi Hargs Hsel. unfold runtime.update_user.
  rewrite decide_False by done.
  rewrite runtime_read_user_int64, read_user_missing by done. done.
Qed.

Lemma runtime_update_user_locked i n e p cur :
  int64 i -> ¬ (n = None /\ e = None) ->
  sql_select_by_id i (file p) = Some cur ->
  leaked p = true ->
  runtime.update_user i n e p
  = (Return (MessageReply "Error" "database is locked"), p).
Proof.
  intros Hi Hargs Hsel Hleak. unfold runtime.update_user.
  rewrite decide_False by done.
  rewrite runtime_read_user_int64, (read_user_found _ _ _ Hsel) by done.
  simpl. unfold runtime.execute_update.
  rewrite decide_True by done. by rewrite Hleak.
Qed.

Lemma runtime_update_user_collision i n e p cur :
  int64 i -> ¬ (n = None /\ e = None) ->
  sql_select_by_id i (file p) = Some cur ->
  leaked p = false ->
  Exists (fun v => id v ≠ i /\ email v = default (email cur) e)
    (users (file p)) ->
  runtime.update_user i n e p
  = (Return (MessageReply "Error" (already_exists (default (email cur) e))),
     {| file := file p; leaked := true |}).
Proof.
  intros Hi Hargs Hsel Hleak Htaken. unfold runtime.update_user.
  rewrite decide_False by done.
  rewrite runtime_read_user_int64, (read_user_found _ _ _ Hsel) by done.
  simpl. unfold runtime.execute_update.
  rewrite decide_True by done. rewrite Hleak.
  rewrite sql_update_collision; by rewrite ?Hsel.
Qed.

Lemma runtime_update_user_free i n e p cur :
  int64 i -> ¬ (n = None /\ e = None) ->
  sql_select_by_id i (file p) = Some cur ->
  leaked p = false ->
  ¬ Exists (fun v => id v ≠ i /\ email v = default (email cur) e)
      (users (file p)) ->
  let merged := mkUser i (default (name cur) n) (default (email cur) e) in
  runtime.update_user i n e p
  = (Return (UpdatedReply "Success" merged),
     {| file := {| users := (fun u => if decide (id u = i) then merged
                                      else u) <$> users (file p);
                   sqlite_sequence := sqlite_sequence (file p) |};
        leaked := false |}).
Proof.
  intros Hi Hargs Hsel Hleak Hfree merged. unfold runtime.update_user.
  rewrite decide_False by done.
  rewrite runtime_read_user_int64, (read_user_found _ _ _ Hsel) by done.
  simpl. unfold runtime.execute_update.
  rewrite decide_True by done. rewrite Hleak.
  destruct (sql_update_free (default (name cur) n) (default (email cur) e)
              i (file p)) as (k & Hk & ->); [by rewrite Hsel|done|].
  simpl. by rewrite decide_True by done.
Qed.

Lemma runtime_update_user_file i n e p :
  file (runtime.update_user i n e p).2 = file p
  \/ file (runtime.update_user i n e p).2 = (update_user i n e (file p)).2.
Proof.
  destruct (decide (n = None /\ e = None)) as [Hargs|Hargs].
  { left. unfold runtime.update_user. by rewrite decide_True. }
  destruct (decide (int64 i)) as [Hi|Hi].
  2: { left. by rewrite runtime_update_user_overflow. }
  destruct (sql_select_by_id i (file p)) as [cur|] eqn:Hsel.
  2: { left. rewrite runtime_update_user_missing by done.
       by rewrite runtime_read_user_state. }
  destruct (leaked p) eqn:Hleak.
  { left. by rewrite (runtime_update_user_locked i n e p cur). }
  destruct (decide (Exists (fun v => id v ≠ i
                              /\ email v = default (email cur) e)
                      (users (file p)))) as [Htaken|Hfree].
  - left. by rewrite (runtime_update_user_collision i n e p cur).
  - right. rewrite (runtime_update_user_free i n e p cur) by done.
    by rewrite (update_user_free i n e (file p) cur).
Qed.

Lemma runtime_delete_user_overflow i p :
  ¬ int64 i -> runtime.delete_user i p = (Raise too_large, p).
Proof.
  intros Hi. unfold runtime.delete_user, runtime.execute_delete.
  by rewrite decide_False.
Qed.

Lemma runtime_delete_user_locked i p :
  int64 i -> leaked p = true ->
  runtime.delete_user i p = (Raise database_is_locked, p).
Proof.
  intros Hi Hleak. unfold runtime.delete_user, runtime.execute_delete.
  rewrite decide_True by done. by rewrite Hleak.
Qed.

Lemma runtime_delete_user_unlocked i p :
  int64 i -> leaked p = false ->
  runtime.delete_user i p
  = (Return (delete_user i (file p)).1,
     {| file := (delete_user i (file p)).2; leaked := false |}).
Proof.
  intros Hi Hleak. unfold runtime.delete_user, runtime.execute_delete.
  rewrite decide_True by done. rewrite Hleak.
  unfold delete_user. simpl. by case_decide.
Qed.

Lemma runtime_delete_user_file i p :
  file (runtime.delete_user i p).2 = file p
  \/ file (runtime.delete_user i p).2 = (delete_user i (file p)).2.
Proof.
  destruct (decide (int64 i)) as [Hi|Hi].
  2: { left. by rewrite runtime_delete_user_overflow. }
  destruct (leaked p) eqn:Hleak.
  - left. by rewrite runtime_delete_user_locked.
  - right. by rewrite runtime_delete_user_unlocked.
Qed.

Lemma runtime_delete_all_users_locked p :
  leaked p = true ->
  runtime.delete_all_users p = (Raise database_is_locked, p).
Proof.
  intros Hleak. unfold runtime.delete_all_users, runtime.execute_delete_all.
  by rewrite Hleak.
Qed.

Lemma runtime_delete_all_users_unlocked p :
  leaked p = false ->
  runtime.delete_all_users p
  = (Return (delete_all_users (file p)).1,
     {| file := (delete_all_users (file p)).2; leaked := false |}).
Proof.
  intros Hleak. unfold runtime.delete_all_users, runtime.execute_delete_all.
  by rewrite Hleak.
Qed.

End Running.

(** ** Properties of the tools in a running process *)

Section RunningProperties.

Implicit Types (db : Database) (p : Process) (u v w : User).

Lemma runtime_populate_loop_reachable todo created p :
  reachable (file p) ->
  reachable (file (runtime.populate_loop todo created p).2).
Proof.
  revert created p. induction todo as [|[n e] todo IH];
    intros created p Hp; simpl; [done|].
  assert (reachable (file (runtime.create_user n e p).2)) as Hp'.
  { destruct (runtime_create_user_file n e p) as [-> | ->]; [done|].
    exact (reachable_call (CreateUser n e) _ Hp). }
  destruct (runtime.create_user n e p) as [[result|ex] p']; simpl in *;
    [|done].
  case_decide; by apply IH.
Qed.

Lemma runtime_call_reachable t p :
  reachable (file p) -> reachable (file (runtime.call t p)).
Proof.
  intros Hp. destruct t; simpl.
  - destruct (runtime_create_user_file n e p) as [-> | ->]; [done|].
    exact (reachable_call (CreateUser n e) _ Hp).
  - by rewrite runtime_read_user_state.
  - destruct (runtime_update_user_file user_id n e p) as [-> | ->]; [done|].
    exact (reachable_call (UpdateUser user_id n e) _ Hp).
  - destruct (runtime_delete_user_file user_id p) as [-> | ->]; [done|].
    exact (reachable_call (DeleteUser user_id) _ Hp).
  - done.
  - destruct (leaked p) eqn:Hleak.
    + by rewrite runtime_delete_all_users_locked.
    + rewrite runtime_delete_all_users_unlocked by done.
      exact (reachable_call DeleteAllUsers _ Hp).
  - unfold runtime.populate_database, runtime.list_users, sql_select_all.
    case_decide; [done|].
    pose proof (runtime_populate_loop_reachable sample_users [] p Hp) as Hp'.
    by destruct (runtime.populate_loop sample_users [] p) as [[?|?] ?].
Qed.

Lemma reachable_process_file p : reachable_process p -> reachable (file p).
Proof.
  induction 1 as [|[t|] p _ IH]; simpl.
  - apply reachable_new.
  - by apply runtime_call_reachable.
  - done.
Qed.

Lemma seeded_locked_reachable : reachable_process seeded_locked.
Proof.
  exact (reachable_after (Invoke (CreateUser "Al" "alice@example.com")) _
           (reachable_after (Invoke PopulateDatabase) _ reachable_start)).
Qed.

(** C2: the second of two [create_user] calls with one email is not always
    answered with the duplicate-email error.  On the seeded table the
    first call with the email of Alice is refused and leaves its
    connection open; the second, made before the runtime reclaims that
    connection, is answered "database is locked".  After the connection
    is reclaimed the answer is the duplicate-email error.  The table has
    one row with the email throughout. *)
Theorem create_same_email_twice_locked :
  let first := runtime.create_user "Al" "alice@example.com" seeded_process in
  let second := runtime.create_user "Ally" "alice@example.com" first.2 in
  let retry :=
    runtime.create_user "Ally" "alice@example.com" (collect first.2) in
  first.1 = Return (MessageReply "Error" (already_exists "alice@example.com"))
  /\ second.1 = Return (MessageReply "Error" "database is locked")
  /\ second.1
     ≠ Return (MessageReply "Error" (already_exists "alice@example.com"))
  /\ retry.1
     = Return (MessageReply "Error" (already_exists "alice@example.com"))
  /\ length (filter (fun u => email u = "alice@example.com")
               (runtime.list_users second.2).1) = 1%nat.
Proof. repeat split. by intros [=]. Qed.

(** C3: in a process reachable through the tools, a [create_user] and an
    [update_user] that would give two users one email are not always
    refused with the duplicate-email error.  After a refused
    [create_user] on the seeded table both are answered "database is
    locked".  The table is unchanged and its emails stay distinct. *)
Theorem collision_answered_locked :
  reachable_process seeded_locked
  /\ runtime.create_user "Ally" "alice@example.com" seeded_locked
     = (Return (MessageReply "Error" "database is locked"), seeded_locked)
  /\ runtime.update_user 2 None (Some "alice@example.com") seeded_locked
     = (Return (MessageReply "Error" "database is locked"), seeded_locked)
  /\ file seeded_locked = seeded
  /\ NoDup (email <$> users (file seeded_locked)).
Proof.
  split; [exact seeded_locked_reachable|]. repeat split.
  apply (bool_decide_unpack _). by vm_compute.
Qed.

(** C7: [delete_all_users] does not always report the rows removed.  After
    a refused [create_user] on the seeded table it raises
    [OperationalError: database is locked] and the five rows stay; once
    the connection left open is reclaimed it reports 5. *)
Theorem delete_all_users_locked :
  runtime.delete_all_users seeded_locked
  = (Raise database_is_locked, seeded_locked)
  /\ length (runtime.list_users seeded_locked).1 = 5%nat
  /\ (runtime.delete_all_users (collect seeded_locked)).1
     = Return (DeletedReply "Success"
                 "All 5 users have been deleted from the database." 5).
Proof. repeat split. Qed.

(** C9: [delete_user] on an id without a row does not always return the
    Not Found reply.  For the id 2^63, in every process, it raises
    [OverflowError]; for the id 9, which no row of the seeded table has,
    it raises [OperationalError: database is locked] after a refused
    [create_user]. *)
Theorem delete_user_raises :
  (forall p,
     runtime.delete_user 9223372036854775808 p = (Raise too_large, p))
  /\ sql_select_by_id 9 (file seeded_locked) = None
  /\ runtime.delete_user 9 seeded_locked
     = (Raise database_is_locked, seeded_locked).
Proof.
  split; [|by repeat split].
  intros p. apply runtime_delete_user_overflow. unfold int64. lia.
Qed.

(** C4, amended: in a process where no connection left open holds the
    lock, for an existing id and at least one supplied field: if no
    different user holds the resulting email, [update_user] returns the
    merged user (supplied fields new, the others as before) and the table
    then holds that record under the id; if a different user holds it,
    the reply is the duplicate-email error and nothing is written. *)
Theorem update_user_merges_unlocked
    (i : Z) (n e : option string) p cur :
  leaked p = false ->
  int64 i ->
  sql_select_by_id i (file p) = Some cur ->
  ¬ (n = None /\ e = None) ->
  let merged := merged_user i n e cur in
  let taken :=
    Exists (fun v => id v ≠ i /\ email v = email merged) (users (file p)) in
  (¬ taken ->
     (runtime.update_user i n e p).1 = Return (UpdatedReply "Success" merged)
     /\ (runtime.read_user i (runtime.update_user i n e p).2).1
        = Return (UserReply "Success" merged))
  /\ (taken ->
     (exists r, (runtime.update_user i n e p).1 = Return r
                /\ DuplicateEmail (email merged) r)
     /\ file (runtime.update_user i n e p).2 = file p).
Proof.
  intros Hleak Hi Hsel Hargs merged taken. split.
  - intros Hfree. rewrite (runtime_update_user_free i n e p cur) by done.
    split; [done|]. simpl.
    rewrite runtime_read_user_int64 by done. simpl.
    rewrite (read_user_found i _ merged); [done|].
    apply sql_select_by_id_replaced. by rewrite Hsel.
  - intros Htaken.
    rewrite (runtime_update_user_collision i n e p cur) by done.
    split; [by eexists|done].
Qed.

(** X16: whatever the process does, tool calls that are refused or locked
    out and reclaimed connections included, the content of the file is
    one that the tools reach on a file that is never locked.  So in every
    reachable process no two users share an email and [list_users] is in
    increasing order of id. *)
Theorem process_keeps_schema p :
  reachable_process p ->
  reachable (file p)
  /\ NoDup (email <$> users (file p))
  /\ StronglySorted id_lt (runtime.list_users p).1.
Proof.
  intros Hp%reachable_process_file. split; [done|].
  by destruct (reachable_valid _ Hp).
Qed.

End RunningProperties.

(** ** More about the tools in a running process *)

Section RunningTools.

Implicit Types (db : Database) (p : Process) (u v w : User).

(** X1: in a process where no connection left open holds the lock and the
    AUTOINCREMENT counter has room, [create_user] with an email that is
    not in the table succeeds and leaves no lock; the new user has an id
    above every id in the table and above the counter, is listed last, is
    read back under its id, and every other id reads as before. *)
Theorem runtime_create_user_fresh_row (n e : string) p :
  leaked p = false ->
  next_rowid (file p) <= 9223372036854775807 ->
  e ∉ email <$> users (file p) ->
  let new_user := mkUser (next_rowid (file p)) n e in
  let p' := (runtime.create_user n e p).2 in
  (runtime.create_user n e p).1 = Return (UserReply "Success" new_user)
  /\ leaked p' = false
  /\ (forall v, v ∈ users (file p) -> id v < id new_user)
  /\ sqlite_sequence (file p) < id new_user
  /\ (runtime.list_users p').1 = (runtime.list_users p).1 ++ [new_user]
  /\ (runtime.read_user (id new_user) p').1
     = Return (UserReply "Success" new_user)
  /\ (forall j, j ≠ id new_user ->
        (runtime.read_user j p').1 = (runtime.read_user j p).1).
Proof.
  intros Hleak Hroom He new_user p'. unfold p'.
  rewrite runtime_create_user_new by done.
  assert (forall v, v ∈ users (file p) -> id v ≠ id new_user) as Hfresh.
  { intros v Hv%next_rowid_fresh. simpl. lia. }
  pose proof (next_rowid_positive (file p)) as Hpos.
  repeat split.
  - intros v Hv. by apply next_rowid_fresh.
  - simpl. unfold next_rowid. lia.
  - simpl. rewrite runtime_read_user_int64 by (unfold int64; lia). simpl.
    rewrite (read_user_found _ _ new_user); [done|].
    rewrite (sql_select_by_id_snoc _ (file p) new_user) by done.
    by rewrite decide_True.
  - intros j Hj. apply runtime_read_user_ending. simpl.
    rewrite (sql_select_by_id_snoc _ (file p) new_user) by done.
    by rewrite decide_False.
Qed.

(** X3: for an id that [sqlite3] can bind, [update_user] replies Not
    Found exactly when a field is supplied and no row has the id, locked
    file or not; it then ends as [read_user] does.  The reply "not found,
    so nothing was updated" written after the UPDATE statement is never
    returned.  For an id that cannot be bound, with a field supplied, the
    [OverflowError] of the [read_user] call leaves the function. *)
Theorem runtime_update_user_not_found (i : Z) (n e : option string) p :
  let ending := (runtime.update_user i n e p).1 in
  let replies_not_found :=
    exists r, ending = Return r /\ status r = "Not Found" in
  (int64 i ->
     (replies_not_found
      <-> ¬ (n = None /\ e = None) /\ sql_select_by_id i (file p) = None)
     /\ (replies_not_found ->
         runtime.update_user i n e p = runtime.read_user i p))
  /\ ending
     ≠ Return (MessageReply "Not Found"
                 ("User with ID " +:+ pretty i +:+
                  " not found, so nothing was updated."))
  /\ (¬ int64 i -> ¬ (n = None /\ e = None) -> ending = Raise too_large).
Proof.
  intros ending found. unfold found, ending. clear found ending.
  destruct (decide (n = None /\ e = None)) as [Hargs|Hargs].
  { unfold runtime.update_user. rewrite decide_True by done. simpl.
    split; [intros _; split; [split|]|split].
    - by intros (r & [= <-] & ?).
    - by intros [? _].
    - by intros (r & [= <-] & ?).
    - by intros [=].
    - by intros _ ?. }
  destruct (decide (int64 i)) as [Hi|Hi].
  2: { rewrite runtime_update_user_overflow by done. simpl.
       split; [by intros ?|]. split; [by intros [=]|done]. }
  destruct (sql_select_by_id i (file p)) as [cur|] eqn:Hsel.
  - assert (forall r, (runtime.update_user i n e p).1 = Return r ->
                      status r ≠ "Not Found") as Hstatus.
    { intros r. destruct (leaked p) eqn:Hleak.
      - rewrite (runtime_update_user_locked i n e p cur) by done.
        by intros [= <-].
      - destruct (decide (Exists (fun v => id v ≠ i
                                    /\ email v = default (email cur) e)
                            (users (file p)))) as [Htaken|Hfree].
        + rewrite (runtime_update_user_collision i n e p cur) by done.
          by intros [= <-].
        + rewrite (runtime_update_user_free i n e p cur) by done.
          by intros [= <-]. }
    split; [intros _; split; [split|]|split].
    + intros (r & Hr & Hnf). by destruct (Hstatus r Hr).
    + by intros [_ ?].
    + intros (r & Hr & Hnf). by destruct (Hstatus r Hr).
    + intros Hr. by destruct (Hstatus _ Hr).
    + by intros ?.
  - rewrite runtime_update_user_missing by done.
    rewrite runtime_read_user_int64, read_user_missing by done. simpl.
    split; [intros _; split; [split|]|split].
    + done.
    + intros _. by eexists.
    + done.
    + intros [= Hmsg%string_app_inj%string_app_inj]. discriminate Hmsg.
    + by intros ?.
Qed.

Lemma max_rowid_filter (i : Z) (rows : list User) :
  max_rowid (filter (fun u => id u ≠ i) rows) <= max_rowid rows.
Proof.
  induction rows as [|v rows IH]; [done|].
  rewrite filter_cons. case_decide; simpl; lia.
Qed.

(** X5: [delete_user] touches the addressed row only.  In every process
    every other id reads as before and the AUTOINCREMENT counter is kept.
    When no connection left open holds the lock, the table satisfies the
    schema constraints and a row has the id, the call reports success and
    [list_users] is shorter by exactly one. *)
Theorem runtime_delete_user_only_that_row (i : Z) p :
  let p' := (runtime.delete_user i p).2 in
  (forall j, j ≠ i ->
     (runtime.read_user j p').1 = (runtime.read_user j p).1)
  /\ sqlite_sequence (file p') = sqlite_sequence (file p)
  /\ (leaked p = false -> valid_db (file p) ->
      is_Some (sql_select_by_id i (file p)) -> int64 i ->
      (runtime.delete_user i p).1
      = Return (MessageReply "Success"
                  ("User with ID " +:+ pretty i +:+
                   " was deleted successfully."))
      /\ S (length (runtime.list_users p').1)
         = length (runtime.list_users p).1).
Proof.
  intros p'. unfold p'.
  destruct (runtime_delete_user_file i p) as [Hfile|Hfile].
  - repeat split.
    + intros j Hj. apply runtime_read_user_ending. by rewrite Hfile.
    + by rewrite Hfile.
    + rewrite runtime_delete_user_unlocked by done.
      by rewrite delete_user_found.
    + rewrite runtime_delete_user_unlocked by done. simpl.
      by apply (proj2 (proj2 (delete_user_only_that_row i (file p)))).
  - repeat split.
    + intros j Hj. apply runtime_read_user_ending. rewrite Hfile.
      rewrite delete_user_state. by apply sql_select_by_id_delete_other.
    + rewrite Hfile. by rewrite delete_user_state.
    + rewrite runtime_delete_user_unlocked by done.
      by rewrite delete_user_found.
    + rewrite runtime_delete_user_unlocked by done. simpl.
      by apply (proj2 (proj2 (delete_user_only_that_row i (file p)))).
Qed.

(** X6: deleting a user frees the email.  In a process where no
    connection left open holds the lock, on a table that satisfies the
    schema constraints and whose counter has room, [create_user] with the
    email of a user just removed by [delete_user] succeeds. *)
Theorem runtime_delete_frees_email u (n : string) p :
  leaked p = false ->
  valid_db (file p) ->
  next_rowid (file p) <= 9223372036854775807 ->
  u ∈ users (file p) ->
  int64 (id u) ->
  exists w,
    (runtime.create_user n (email u) (runtime.delete_user (id u) p).2).1
    = Return (UserReply "Success" w)
    /\ name w = n /\ email w = email u.
Proof.
  intros Hleak [Hkey Huniq] Hroom Hu Hi.
  rewrite runtime_delete_user_unlocked by done.
  rewrite delete_user_state.
  rewrite runtime_create_user_new; [by eexists|done| |].
  - simpl. unfold next_rowid in *. simpl.
    pose proof (max_rowid_filter (id u) (users (file p))). lia.
  - simpl.
    intros (v & Heq & [Hid Hv]%list_elem_of_filter)%list_elem_of_fmap.
    apply Hid. by rewrite (unique_email_holder (users (file p)) u v).
Qed.

(** X7: a user is never refused the email the user already has.  In a
    process where no connection left open holds the lock, on a table that
    satisfies the schema constraints, [update_user] on an existing id
    that supplies a name only, or the user's own email, succeeds and
    keeps the email. *)
Theorem runtime_update_user_own_email (i : Z) (n e : option string) p cur :
  leaked p = false ->
  valid_db (file p) ->
  int64 i ->
  sql_select_by_id i (file p) = Some cur ->
  ¬ (n = None /\ e = None) ->
  e = None \/ e = Some (email cur) ->
  (runtime.update_user i n e p).1
  = Return (UpdatedReply "Success"
              (mkUser i (default (name cur) n) (email cur))).
Proof.
  intros Hleak [_ Huniq] Hi Hsel Hargs He.
  assert (default (email cur) e = email cur) as Hemail
    by (by destruct He as [->| ->]).
  destruct (sql_select_by_id_Some _ _ _ Hsel) as [Hcur Hid].
  rewrite (runtime_update_user_free i n e p cur); [by rewrite Hemail|done..|].
  rewrite Hemail. intros (v & Hv & Hvid & Hve)%Exists_exists.
  apply Hvid. rewrite <- Hid.
  by rewrite (unique_email_holder (users (file p)) v cur).
Qed.

End RunningTools.

(** ** The older copies in a running process *)

Section RunningOthers.

Implicit Types (db : Database) (p : Process) (u v w : User).

Lemma process_eta p :
  leaked p = false -> {| file := file p; leaked := false |} = p.
Proof. destruct p. simpl. by intros ->. Qed.

(** X9: the [update_user] of [tools/tools.py] against the one of
    [agent/tools/tools.py] given both fields.  On a file without the
    table the first raises [OperationalError].  For an id that cannot be
    bound both raise [OverflowError].  Otherwise, when no connection left
    open holds the lock, both leave the same file and the same lock: if
    another user holds the email the first lets [IntegrityError] escape
    where the second returns the duplicate-email error, and both leave
    their connection behind; on success the replies are equal; if no row
    has the id both reply Not Found and change nothing. *)
Theorem runtime_tools_update_user_agrees (i : Z) (n e : string) p :
  runtime.tools.update_user i n e None = (Raise no_such_table, None)
  /\ (¬ int64 i ->
      runtime.tools.update_user i n e (Some p) = (Raise too_large, Some p)
      /\ runtime.update_user i (Some n) (Some e) p = (Raise too_large, p))
  /\ (int64 i -> leaked p = false ->
      let older := runtime.tools.update_user i n e (Some p) in
      let newer := runtime.update_user i (Some n) (Some e) p in
      older.2 = Some newer.2
      /\ match older.1 with
         | Raise ex =>
             ex = Sqlite IntegrityError
             /\ newer.1 = Return (MessageReply "Error" (already_exists e))
             /\ newer.2 = {| file := file p; leaked := true |}
         | Return r =>
             if decide (status r = "Success")
             then newer.1 = Return r
             else NotFound r
                  /\ (exists r', newer.1 = Return r' /\ NotFound r')
                  /\ newer.2 = p
         end).
Proof.
  assert (¬ (Some n = None /\ Some e = None)) as Hargs by (by intros [? _]).
  split; [done|]. split.
  - intros Hi. split; [|by apply runtime_update_user_overflow].
    unfold runtime.tools.update_user, runtime.execute_update.
    by rewrite decide_False.
  - intros Hi Hleak older newer. unfold older, newer.
    unfold runtime.tools.update_user, runtime.execute_update.
    rewrite decide_True by done. rewrite Hleak.
    destruct (sql_select_by_id i (file p)) as [cur|] eqn:Hsel.
    + destruct (decide (Exists (fun v => id v ≠ i /\ email v = e)
                          (users (file p)))) as [Htaken|Hfree].
      * rewrite sql_update_collision by (by rewrite ?Hsel). simpl.
        by rewrite (runtime_update_user_collision i (Some n) (Some e) p cur).
      * destruct (sql_update_free n e i (file p)) as (k & Hk & ->);
          [by rewrite Hsel|done|].
        simpl. rewrite decide_True by done.
        by rewrite (runtime_update_user_free i (Some n) (Some e) p cur).
    + rewrite sql_update_missing by done. simpl.
      rewrite runtime_update_user_missing by done.
      rewrite runtime_read_user_int64, read_user_missing by done. simpl.
      rewrite process_eta by done.
      split; [done|]. unfold NotFound. split; [by eexists|].
      split; [|done]. eexists. split; [done|by eexists].
Qed.

(** X10: the [update_user] of [src/database.py].  An id that cannot be
    bound: [OverflowError].  A file locked by a connection left open:
    [OperationalError].  Otherwise: with no row of that id the error
    dictionary, nothing written; when a different user holds the email
    [IntegrityError] escapes, nothing is written and the connection, with
    the lock, is left behind; else the user with the id and the two new
    fields is returned and [read_user] then returns the same user. *)
Theorem runtime_database_update_user_outcomes (i : Z) (n e : string) p :
  (¬ int64 i ->
     runtime.database.update_user i n e p = (Raise too_large, p))
  /\ (int64 i -> leaked p = true ->
      runtime.database.update_user i n e p = (Raise database_is_locked, p))
  /\ (int64 i -> leaked p = false ->
      match sql_select_by_id i (file p) with
      | None =>
          runtime.database.update_user i n e p
          = (Return (database.ErrorDict (database.not_found i)), p)
      | Some _ =>
          if decide (Exists (fun v => id v ≠ i /\ email v = e)
                       (users (file p)))
          then runtime.database.update_user i n e p
               = (Raise (Sqlite IntegrityError),
                  {| file := file p; leaked := true |})
          else
            let updated := Return (database.UserDict (mkUser i n e)) in
            let p' := (runtime.database.update_user i n e p).2 in
            (runtime.database.update_user i n e p).1 = updated
            /\ (runtime.database.read_user i p').1 = updated
            /\ leaked p' = false
      end).
Proof.
  unfold runtime.database.update_user, runtime.execute_update.
  split; [|split].
  - intros Hi. by rewrite decide_False.
  - intros Hi Hleak. rewrite decide_True by done. by rewrite Hleak.
  - intros Hi Hleak. rewrite !(decide_True (P := int64 i)) by done.
    rewrite Hleak.
    destruct (sql_select_by_id i (file p)) as [cur|] eqn:Hsel.
    + case_decide as Htaken.
      * by rewrite sql_update_collision by (by rewrite ?Hsel).
      * destruct (sql_update_free n e i (file p)) as (k & Hk & ->);
          [by rewrite Hsel|done|].
        simpl. rewrite decide_True by done. simpl. split; [done|].
        split; [|done].
        unfold runtime.database.read_user, runtime.execute_select_by_id.
        rewrite decide_True by done. simpl.
        by rewrite sql_select_by_id_replaced by (by rewrite Hsel).
    + rewrite sql_update_missing by done. simpl.
      by rewrite process_eta.
Qed.

(** X11: the [create_user] of [src/database.py].  On a file locked by a
    connection left open, [OperationalError] escapes.  Otherwise, while
    the AUTOINCREMENT counter has room: if the email is in the table it
    returns the error dictionary, writes nothing and leaves no lock; if
    not, it returns the new user, with the name and the email given,
    under an id that [read_user] then finds. *)
Theorem runtime_database_create_then_read (n e : string) p :
  (leaked p = true ->
     runtime.database.create_user n e p = (Raise database_is_locked, p))
  /\ (leaked p = false ->
      next_rowid (file p) <= 9223372036854775807 ->
      (e ∈ email <$> users (file p) ->
         runtime.database.create_user n e p
         = (Return
              (database.ErrorDict
                 ("User with email " +:+ e +:+ " already exists.")), p))
      /\ (e ∉ email <$> users (file p) ->
          exists i,
            let created := Return (database.UserDict (mkUser i n e)) in
            (runtime.database.create_user n e p).1 = created
            /\ (runtime.database.read_user i
                  (runtime.database.create_user n e p).2).1 = created)).
Proof.
  unfold runtime.database.create_user. split.
  - intros Hleak. unfold runtime.execute_insert. by rewrite Hleak.
  - intros Hleak Hroom. rewrite execute_insert_unlocked by done.
    split; intros He.
    + by rewrite sql_insert_duplicate.
    + rewrite sql_insert_new by done. exists (next_rowid (file p)).
      split; [done|]. simpl.
      pose proof (next_rowid_positive (file p)) as Hpos.
      unfold runtime.database.read_user, runtime.execute_select_by_id.
      rewrite decide_True by (unfold int64; lia). simpl.
      rewrite (sql_select_by_id_snoc _ (file p)
                 (mkUser (next_rowid (file p)) n e)).
      * by rewrite decide_True.
      * intros v Hv%next_rowid_fresh. simpl. lia.
Qed.

(** X12: the [delete_user] and [read_user] of [src/database.py].  For an
    id that cannot be bound both raise [OverflowError].  Otherwise, when
    no connection left open holds the lock: after [delete_user],
    [read_user] on the id returns the error dictionary; [delete_user]
    returns the message dictionary when a row had the id and the error
    dictionary, with nothing changed, when none had. *)
Theorem runtime_database_delete_then_read (i : Z) p :
  (¬ int64 i ->
     runtime.database.delete_user i p = (Raise too_large, p)
     /\ runtime.database.read_user i p = (Raise too_large, p))
  /\ (int64 i -> leaked p = false ->
      (runtime.database.read_user i
         (runtime.database.delete_user i p).2).1
      = Return (database.ErrorDict (database.not_found i))
      /\ (is_Some (sql_select_by_id i (file p)) ->
          (runtime.database.delete_user i p).1
          = Return (database.MessageDict
                      ("User with ID " +:+ pretty i +:+
                       " deleted successfully.")))
      /\ (sql_select_by_id i (file p) = None ->
          runtime.database.delete_user i p
          = (Return (database.ErrorDict (database.not_found i)), p))).
Proof.
  unfold runtime.database.delete_user, runtime.database.read_user,
    runtime.execute_delete, runtime.execute_select_by_id.
  split.
  - intros Hi. by rewrite !decide_False.
  - intros Hi Hleak. rewrite !decide_True by done. rewrite Hleak.
    split; [|split].
    + pose proof (sql_select_by_id_deleted i (file p)) as Hgone.
      destruct (sql_delete i (file p)) as [rowcount db'].
      simpl in Hgone. case_decide; simpl; by rewrite Hgone.
    + intros Hsome. unfold sql_delete, sql_select_by_id in *.
      destruct (filter _ (users (file p))) as [|w matched];
        [by destruct Hsome|].
      case_decide as Hk; [done|]. simpl in Hk. lia.
    + intros Hnone. rewrite sql_delete_missing by done. simpl.
      by rewrite process_eta.
Qed.

End RunningOthers.

(** ** Start-up by file, and the tools where no lock is held *)

Section RunningSound.

Implicit Types (db : Database) (p : Process) (u v w : User).

(** X14: importing [agent/agent.py], by the file it finds.  Without a
    key, or with an empty one, the import ends in the [ValueError]: a
    missing file has become an empty table, an existing file is as it
    was.  With a key: a missing file ends with the five sample users,
    ids 1 to 5; an existing file with users is left exactly as it was and
    the line printed gives their number; an existing file with an empty
    table receives the five sample names and emails.  Importing again
    changes nothing. *)
Theorem agent_import_by_file (key : option string) (db : Database) :
  (key_missing key = true ->
     agent.import key None
     = (ValueError key_not_found, {| users := []; sqlite_sequence := 0 |})
     /\ agent.import key (Some db) = (ValueError key_not_found, db))
  /\ (key_missing key = false ->
      agent.import key None
      = (Started ["Database initialization: " +:+
                  "Database populated with 5 sample users."],
         {| users := [ mkUser 1 "Alice Smith" "alice@example.com";
                       mkUser 2 "Bob Johnson" "bob@example.com";
                       mkUser 3 "Charlie Lee" "charlie@example.com";
                       mkUser 4 "Dana White" "dana@example.com";
                       mkUser 5 "Eve Black" "eve@example.com" ];
            sqlite_sequence := 5 |})
      /\ (users db ≠ [] ->
          agent.import key (Some db)
          = (Started ["Database initialization: " +:+
                      "Database already contains " +:+
                      pretty (length (users db)) +:+
                      " users. No sample data added."], db))
      /\ (users db = [] ->
          (fun u => (name u, email u))
            <$> users (agent.import key (Some db)).2
          = sample_users))
  /\ (forall found : option Database,
        (agent.import key (Some (agent.import key found).2)).2
        = (agent.import key found).2).
Proof.
  split; [|split].
  - intros Hkey. unfold agent.import. by rewrite Hkey.
  - intros Hkey. unfold agent.import. rewrite Hkey. split; [done|]. split.
    + intros Hrows. simpl. unfold agent._populate_db.
      by rewrite populate_database_skips.
    + intros Hempty. simpl.
      destruct (agent_populate_db db) as [line ->]. simpl.
      by apply populate_database_pairs.
  - intros found. unfold agent.import.
    destruct (key_missing key) eqn:Hkey; simpl; [done|].
    destruct (agent_populate_db (create_table found)) as [line ->]. simpl.
    destruct (agent_populate_db (populate_database (create_table found)).2)
      as [line' ->]. simpl.
    rewrite populate_database_skips; [done|].
    apply populate_database_nonempty.
Qed.

(** X17: where no connection left open holds the lock, what would give
    two users one email is refused with the duplicate-email error and the
    table is left as it was: [create_user] with an email in the table
    (while the AUTOINCREMENT counter has room), and [update_user] of an
    existing user, under an id that can be bound, to the email of another
    user.  Both leave their connection, and the lock, behind. *)
Theorem collision_refused_unlocked p :
  leaked p = false ->
  (forall n e,
     next_rowid (file p) <= 9223372036854775807 ->
     e ∈ email <$> users (file p) ->
     runtime.create_user n e p
     = (Return (MessageReply "Error" (already_exists e)),
        {| file := file p; leaked := true |}))
  /\ (forall i n e u v,
        int64 i ->
        u ∈ users (file p) -> id u = i ->
        v ∈ users (file p) -> id v ≠ i -> email v = e ->
        runtime.update_user i n (Some e) p
        = (Return (MessageReply "Error" (already_exists e)),
           {| file := file p; leaked := true |})).
Proof.
  intros Hleak. split.
  - intros n e Hroom He. by apply runtime_create_user_duplicate.
  - intros i n e u v Hi Hu Hid Hv Hvid Hve.
    destruct (sql_select_by_id_is_Some i (file p) u Hu Hid) as [cur Hsel].
    rewrite (runtime_update_user_collision i n (Some e) p cur); try done.
    + by intros [_ ?].
    + apply Exists_exists. by exists v.
Qed.

(** X18: two [create_user] calls with one email, where no connection left
    open holds the lock, the table satisfies the schema constraints and
    the AUTOINCREMENT counter has room for two.  If the email was not in
    the table, the second call is answered with the duplicate-email
    error.  Whether it was or not, the second call is answered so once
    the runtime has reclaimed what the first left open.  In both cases
    nothing is written by the second call and the table has exactly one
    row with the email. *)
Theorem runtime_create_same_email_twice (n1 n2 e : string) p :
  leaked p = false ->
  valid_db (file p) ->
  next_rowid (file p) < 9223372036854775807 ->
  let first := runtime.create_user n1 e p in
  let at_once := runtime.create_user n2 e first.2 in
  let later := runtime.create_user n2 e (collect first.2) in
  let duplicate := Return (MessageReply "Error" (already_exists e)) in
  (e ∉ email <$> users (file p) -> at_once.1 = duplicate)
  /\ later.1 = duplicate
  /\ file at_once.2 = file first.2
  /\ file later.2 = file first.2
  /\ length (filter (fun u => email u = e) (runtime.list_users first.2).1)
     = 1%nat.
Proof.
  intros Hleak Hvalid Hroom first at_once later duplicate.
  unfold duplicate, at_once, later, first.
  clear first at_once later duplicate.
  destruct (decide (e ∈ email <$> users (file p))) as [He|He].
  - rewrite (runtime_create_user_duplicate n1) by (done || lia). simpl.
    rewrite (runtime_create_user_duplicate n2 e
               (collect {| file := file p; leaked := true |}))
      by (done || simpl; lia).
    simpl. repeat split; try done.
    destruct Hvalid as [_ Huniq]. by apply unique_email_count.
  - rewrite (runtime_create_user_new n1) by (done || lia). simpl.
    set (db1 := {| users := users (file p)
                            ++ [mkUser (next_rowid (file p)) n1 e];
                   sqlite_sequence := next_rowid (file p) |}).
    assert (e ∈ email <$> users db1) as He1.
    { simpl. rewrite fmap_app, elem_of_app. right. simpl. left. }
    assert (next_rowid db1 <= 9223372036854775807) as Hroom1.
    { pose proof (next_rowid_positive (file p)).
      unfold db1. rewrite next_rowid_snoc; [lia| |lia..].
      apply Forall_forall. intros v Hv. by apply next_rowid_fresh. }
    assert (valid_db db1) as [_ Huniq1].
    { pose proof (create_user_valid n1 e (file p) Hvalid) as Hv.
      by rewrite create_user_new in Hv. }
    rewrite !(runtime_create_user_duplicate n2) by done. simpl.
    repeat split; try done. by apply unique_email_count.
Qed.

(** X19: where no connection left open holds the lock,
    [delete_all_users] reports as many deleted users as the table had
    rows and leaves [list_users] empty; called again at once it reports
    0. *)
Theorem runtime_delete_all_then_again p :
  leaked p = false ->
  let first := runtime.delete_all_users p in
  let again := runtime.delete_all_users first.2 in
  first.1 = Return (DeletedReply "Success"
                      ("All " +:+ pretty (length (users (file p))) +:+
                       " users have been deleted from the database.")
                      (length (users (file p))))
  /\ (runtime.list_users first.2).1 = []
  /\ again.1 = Return (DeletedReply "Success"
                         "All 0 users have been deleted from the database." 0)
  /\ again.2 = first.2.
Proof.
  intros Hleak first again. unfold again, first.
  rewrite (runtime_delete_all_users_unlocked p) by done. simpl.
  by repeat split.
Qed.

(** X20: for an id that can be bound, where no connection left open holds
    the lock: after [delete_user], [read_user] on the id replies Not
    Found; [delete_user] itself returns the success message when a row
    had the id and the Not Found reply, with nothing changed, when none
    had. *)
Theorem runtime_delete_then_read (i : Z) p :
  int64 i ->
  leaked p = false ->
  (exists r, (runtime.read_user i (runtime.delete_user i p).2).1 = Return r
             /\ NotFound r)
  /\ (is_Some (sql_select_by_id i (file p)) ->
      (runtime.delete_user i p).1
      = Return (MessageReply "Success"
                  ("User with ID " +:+ pretty i +:+
                   " was deleted successfully.")))
  /\ (sql_select_by_id i (file p) = None ->
      (exists r, (runtime.delete_user i p).1 = Return r /\ NotFound r)
      /\ (runtime.delete_user i p).2 = p).
Proof.
  intros Hi Hleak. rewrite runtime_delete_user_unlocked by done.
  split; [|split].
  - simpl. rewrite runtime_read_user_int64 by done. simpl.
    rewrite delete_user_state, read_user_missing
      by apply sql_select_by_id_deleted.
    eexists. split; [done|]. by eexists.
  - intros Hsome. by rewrite delete_user_found.
  - intros Hnone. rewrite delete_user_missing by done. simpl.
    rewrite process_eta by done. split; [|done].
    eexists. split; [done|]. by eexists.
Qed.

End RunningSound.

(** ** The running process at concrete tables *)

Section RunningInstances.

Lemma seeded_has_room : next_rowid (file seeded_process) <= 9223372036854775807.
Proof. apply (bool_decide_unpack _). vm_compute. exact I. Defined.

Lemma seeded_has_room_for_two :
  next_rowid (file seeded_process) < 9223372036854775807.
Proof. apply (bool_decide_unpack _). vm_compute. exact I. Defined.

Lemma two_is_int64 : int64 2.
Proof. apply (bool_decide_unpack _). vm_compute. exact I. Defined.

Lemma three_is_int64 : int64 3.
Proof. apply (bool_decide_unpack _). vm_compute. exact I. Defined.

Lemma nine_is_int64 : int64 9.
Proof. apply (bool_decide_unpack _). vm_compute. exact I. Defined.

Lemma two_to_63_not_int64 : ¬ int64 9223372036854775808.
Proof. apply (bool_decide_unpack _). vm_compute. exact I. Defined.

Lemma name_supplied : ¬ (Some "Robert" = None /\ (None : option string) = None).
Proof. intros [Hname _]. discriminate Hname. Defined.

(** C4, amended, on the seeded table in a process that holds no lock:
    renaming Bob keeps his email. *)
Lemma update_user_merges_unlocked_rename :
  leaked seeded_process = false
  /\ int64 2
  /\ sql_select_by_id 2 (file seeded_process)
     = Some (mkUser 2 "Bob Johnson" "bob@example.com")
  /\ (runtime.update_user 2 (Some "Robert") None seeded_process).1
     = Return (UpdatedReply "Success" (mkUser 2 "Robert" "bob@example.com"))
  /\ (runtime.read_user 2
        (runtime.update_user 2 (Some "Robert") None seeded_process).2).1
     = Return (UserReply "Success" (mkUser 2 "Robert" "bob@example.com")).
Proof.
  split; [reflexivity|]. split; [exact two_is_int64|].
  split; [reflexivity|].
  refine (proj1 (update_user_merges_unlocked 2 (Some "Robert") None
                   seeded_process
                   (mkUser 2 "Bob Johnson" "bob@example.com")
                   eq_refl two_is_int64 eq_refl name_supplied) _).
  apply (bool_decide_unpack _). vm_compute. exact I.
Defined.

(** X1 on the seeded table: Zoe gets id 6. *)
Lemma runtime_create_user_fresh_row_seeded :
  leaked seeded_process = false
  /\ next_rowid (file seeded_process) <= 9223372036854775807
  /\ ("zoe@example.com" ∉ email <$> users (file seeded_process))
  /\ (runtime.create_user "Zoe" "zoe@example.com" seeded_process).1
     = Return (UserReply "Success" (mkUser 6 "Zoe" "zoe@example.com")).
Proof.
  assert ("zoe@example.com" ∉ email <$> users (file seeded_process)) as Hnew.
  { apply (bool_decide_unpack _). vm_compute. exact I. }
  split; [reflexivity|]. split; [exact seeded_has_room|].
  split; [exact Hnew|].
  exact (proj1 (runtime_create_user_fresh_row "Zoe" "zoe@example.com"
                  seeded_process eq_refl seeded_has_room Hnew)).
Defined.

(** X3 on the seeded table: no user has id 9; 2^63 cannot be bound. *)
Lemma runtime_update_user_not_found_seeded :
  (int64 9
   /\ runtime.update_user 9 (Some "Nina") None seeded_process
      = runtime.read_user 9 seeded_process)
  /\ (¬ int64 9223372036854775808
      /\ (runtime.update_user 9223372036854775808 (Some "Nina") None
            seeded_process).1 = Raise too_large).
Proof.
  split.
  - split; [exact nine_is_int64|].
    refine (proj2 (proj1 (runtime_update_user_not_found 9 (Some "Nina") None
                            seeded_process) nine_is_int64) _).
    eexists. split; reflexivity.
  - split; [exact two_to_63_not_int64|].
    refine (proj2 (proj2 (runtime_update_user_not_found 9223372036854775808
                            (Some "Nina") None seeded_process))
              two_to_63_not_int64 _).
    intros [Hname _]. discriminate Hname.
Defined.

(** X5 on the seeded table: Charlie is deleted, four users are left. *)
Lemma runtime_delete_user_only_that_row_seeded :
  leaked seeded_process = false
  /\ valid_db (file seeded_process)
  /\ is_Some (sql_select_by_id 3 (file seeded_process))
  /\ int64 3
  /\ (runtime.delete_user 3 seeded_process).1
     = Return (MessageReply "Success"
                 "User with ID 3 was deleted successfully.")
  /\ S (length (runtime.list_users
                  (runtime.delete_user 3 seeded_process).2).1)
     = length (runtime.list_users seeded_process).1.
Proof.
  assert (is_Some (sql_select_by_id 3 (file seeded_process))) as Hsome
    by (eexists; reflexivity).
  split; [reflexivity|]. split; [exact seeded_valid|].
  split; [exact Hsome|]. split; [exact three_is_int64|].
  exact (proj2 (proj2 (runtime_delete_user_only_that_row 3 seeded_process))
           eq_refl seeded_valid Hsome three_is_int64).
Defined.

(** X6 on the seeded table: Bob is deleted and his email given to Rob. *)
Lemma runtime_delete_frees_email_seeded :
  leaked seeded_process = false
  /\ valid_db (file seeded_process)
  /\ next_rowid (file seeded_process) <= 9223372036854775807
  /\ mkUser 2 "Bob Johnson" "bob@example.com" ∈ users (file seeded_process)
  /\ int64 2
  /\ exists w,
       (runtime.create_user "Rob" "bob@example.com"
          (runtime.delete_user 2 seeded_process).2).1
       = Return (UserReply "Success" w)
       /\ name w = "Rob" /\ email w = "bob@example.com".
Proof.
  split; [reflexivity|]. split; [exact seeded_valid|].
  split; [exact seeded_has_room|]. split; [exact bob_in_seeded|].
  split; [exact two_is_int64|].
  exact (runtime_delete_frees_email
           (mkUser 2 "Bob Johnson" "bob@example.com") "Rob" seeded_process
           eq_refl seeded_valid seeded_has_room bob_in_seeded two_is_int64).
Defined.

(** X7 on the seeded table: Bob is renamed and sends his own email. *)
Lemma runtime_update_user_own_email_seeded :
  leaked seeded_process = false
  /\ valid_db (file seeded_process)
  /\ int64 2
  /\ sql_select_by_id 2 (file seeded_process)
     = Some (mkUser 2 "Bob Johnson" "bob@example.com")
  /\ (runtime.update_user 2 (Some "Robert") (Some "bob@example.com")
        seeded_process).1
     = Return (UpdatedReply "Success" (mkUser 2 "Robert" "bob@example.com")).
Proof.
  split; [reflexivity|]. split; [exact seeded_valid|].
  split; [exact two_is_int64|]. split; [reflexivity|].
  refine (runtime_update_user_own_email 2 (Some "Robert")
            (Some "bob@example.com") seeded_process
            (mkUser 2 "Bob Johnson" "bob@example.com")
            eq_refl seeded_valid two_is_int64 eq_refl _ (or_intror eq_refl)).
  intros [Hname _]. discriminate Hname.
Defined.

End RunningInstances.

Section RunningMoreInstances.

(** X9 on the seeded table: Bob is given the email of Alice; the id 2^63. *)
Lemma runtime_tools_update_user_agrees_seeded :
  (¬ int64 9223372036854775808
   /\ runtime.tools.update_user 9223372036854775808 "Bob" "bob@example.com"
        (Some seeded_process)
      = (Raise too_large, Some seeded_process))
  /\ (int64 2
      /\ leaked seeded_process = false
      /\ runtime.tools.update_user 2 "Bob" "alice@example.com"
           (Some seeded_process)
         = (Raise (Sqlite IntegrityError), Some seeded_locked)
      /\ runtime.update_user 2 (Some "Bob") (Some "alice@example.com")
           seeded_process
         = (Return (MessageReply "Error"
                      (already_exists "alice@example.com")), seeded_locked)).
Proof.
  split.
  - split; [exact two_to_63_not_int64|].
    exact (proj1 (proj1 (proj2 (runtime_tools_update_user_agrees
                                  9223372036854775808 "Bob" "bob@example.com"
                                  seeded_process)) two_to_63_not_int64)).
  - split; [exact two_is_int64|]. split; [reflexivity|].
    pose proof (proj2 (proj2 (runtime_tools_update_user_agrees 2 "Bob"
                                "alice@example.com" seeded_process))
                  two_is_int64 eq_refl) as [_ Hagree].
    split; reflexivity.
Defined.

(** X10 on the seeded table: the id 2^63; a locked file; Bob given the
    email of Alice. *)
Lemma runtime_database_update_user_outcomes_seeded :
  (¬ int64 9223372036854775808
   /\ runtime.database.update_user 9223372036854775808 "Bob"
        "bob@example.com" seeded_process
      = (Raise too_large, seeded_process))
  /\ (int64 2
      /\ leaked seeded_locked = true
      /\ runtime.database.update_user 2 "Bob" "rob@example.com" seeded_locked
         = (Raise database_is_locked, seeded_locked)).
Proof.
  split.
  - split; [exact two_to_63_not_int64|].
    exact (proj1 (runtime_database_update_user_outcomes 9223372036854775808
                    "Bob" "bob@example.com" seeded_process)
             two_to_63_not_int64).
  - split; [exact two_is_int64|]. split; [reflexivity|].
    exact (proj1 (proj2 (runtime_database_update_user_outcomes 2 "Bob"
                           "rob@example.com" seeded_locked))
             two_is_int64 eq_refl).
Defined.

(** X11 on the seeded table: a locked file; an email that is taken. *)
Lemma runtime_database_create_then_read_seeded :
  (leaked seeded_locked = true
   /\ runtime.database.create_user "Zoe" "zoe@example.com" seeded_locked
      = (Raise database_is_locked, seeded_locked))
  /\ (leaked seeded_process = false
      /\ next_rowid (file seeded_process) <= 9223372036854775807
      /\ "alice@example.com" ∈ email <$> users (file seeded_process)
      /\ runtime.database.create_user "Al" "alice@example.com" seeded_process
         = (Return
              (database.ErrorDict
                 "User with email alice@example.com already exists."),
            seeded_process)).
Proof.
  assert ("alice@example.com" ∈ email <$> users (file seeded_process))
    as Hold.
  { apply (bool_decide_unpack _). vm_compute. exact I. }
  split.
  - split; [reflexivity|].
    exact (proj1 (runtime_database_create_then_read "Zoe" "zoe@example.com"
                    seeded_locked) eq_refl).
  - split; [reflexivity|]. split; [exact seeded_has_room|].
    split; [exact Hold|].
    exact (proj1 (proj2 (runtime_database_create_then_read "Al"
                           "alice@example.com" seeded_process)
                    eq_refl seeded_has_room) Hold).
Defined.

(** X12 on the seeded table: the id 2^63; no user has id 9. *)
Lemma runtime_database_delete_then_read_seeded :
  (¬ int64 9223372036854775808
   /\ runtime.database.delete_user 9223372036854775808 seeded_process
      = (Raise too_large, seeded_process))
  /\ (int64 9
      /\ leaked seeded_process = false
      /\ sql_select_by_id 9 (file seeded_process) = None
      /\ runtime.database.delete_user 9 seeded_process
         = (Return (database.ErrorDict "User with ID 9 not found."),
            seeded_process)).
Proof.
  split.
  - split; [exact two_to_63_not_int64|].
    exact (proj1 (proj1 (runtime_database_delete_then_read
                           9223372036854775808 seeded_process)
                    two_to_63_not_int64)).
  - split; [exact nine_is_int64|]. split; [reflexivity|].
    split; [reflexivity|].
    exact (proj2 (proj2 (proj2 (runtime_database_delete_then_read 9
                                  seeded_process) nine_is_int64 eq_refl))
             eq_refl).
Defined.

(** X14 without a key on an existing file, and with a key on the seeded
    file. *)
Lemma agent_import_by_file_seeded :
  (key_missing None = true
   /\ agent.import None (Some seeded) = (ValueError key_not_found, seeded))
  /\ (key_missing (Some "secret") = false
      /\ users seeded ≠ []
      /\ agent.import (Some "secret") (Some seeded)
         = (Started ["Database initialization: Database already contains 5 users. No sample data added."],
            seeded)).
Proof.
  assert (users seeded ≠ []) as Hrows by discriminate.
  split.
  - split; [reflexivity|].
    exact (proj2 (proj1 (agent_import_by_file None seeded) eq_refl)).
  - split; [reflexivity|]. split; [exact Hrows|].
    exact (proj1 (proj2 (proj1 (proj2 (agent_import_by_file (Some "secret")
                                         seeded)) eq_refl)) Hrows).
Defined.

(** X16 on the process left by a refused [create_user]. *)
Lemma process_keeps_schema_locked :
  reachable_process seeded_locked
  /\ reachable (file seeded_locked)
  /\ NoDup (email <$> users (file seeded_locked))
  /\ StronglySorted id_lt (runtime.list_users seeded_locked).1.
Proof.
  split; [exact seeded_locked_reachable|].
  exact (process_keeps_schema seeded_locked seeded_locked_reachable).
Defined.

(** X17 on the seeded table. *)
Lemma collision_refused_unlocked_seeded :
  leaked seeded_process = false
  /\ next_rowid (file seeded_process) <= 9223372036854775807
  /\ "alice@example.com" ∈ email <$> users (file seeded_process)
  /\ runtime.create_user "Al" "alice@example.com" seeded_process
     = (Return (MessageReply "Error" (already_exists "alice@example.com")),
        seeded_locked).
Proof.
  assert ("alice@example.com" ∈ email <$> users (file seeded_process))
    as Hold.
  { apply (bool_decide_unpack _). vm_compute. exact I. }
  split; [reflexivity|]. split; [exact seeded_has_room|].
  split; [exact Hold|].
  exact (proj1 (collision_refused_unlocked seeded_process eq_refl)
           "Al" "alice@example.com" seeded_has_room Hold).
Defined.

(** X18 on a new file: Alice, then Bob with her email. *)
Lemma runtime_create_same_email_twice_new_file :
  let p := started (create_table None) in
  leaked p = false
  /\ valid_db (file p)
  /\ next_rowid (file p) < 9223372036854775807
  /\ ("alice@example.com" ∉ email <$> users (file p))
  /\ (runtime.create_user "Bob" "alice@example.com"
        (runtime.create_user "Alice Smith" "alice@example.com" p).2).1
     = Return (MessageReply "Error" (already_exists "alice@example.com")).
Proof.
  intros p.
  assert (next_rowid (file p) < 9223372036854775807) as Hroom.
  { apply (bool_decide_unpack _). vm_compute. exact I. }
  assert ("alice@example.com" ∉ email <$> users (file p)) as Hnew.
  { apply (bool_decide_unpack _). vm_compute. exact I. }
  split; [reflexivity|]. split; [exact create_table_valid|].
  split; [exact Hroom|]. split; [exact Hnew|].
  exact (proj1 (runtime_create_same_email_twice "Alice Smith" "Bob"
                  "alice@example.com" p eq_refl create_table_valid Hroom)
           Hnew).
Defined.

(** X19 on the seeded table. *)
Lemma runtime_delete_all_then_again_seeded :
  leaked seeded_process = false
  /\ (runtime.delete_all_users seeded_process).1
     = Return (DeletedReply "Success"
                 "All 5 users have been deleted from the database." 5).
Proof.
  split; [reflexivity|].
  exact (proj1 (runtime_delete_all_then_again seeded_process eq_refl)).
Defined.

(** X20 on the seeded table: no user has id 9. *)
Lemma runtime_delete_then_read_seeded :
  int64 9
  /\ leaked seeded_process = false
  /\ sql_select_by_id 9 (file seeded_process) = None
  /\ (runtime.delete_user 9 seeded_process).2 = seeded_process.
Proof.
  split; [exact nine_is_int64|]. split; [reflexivity|].
  split; [reflexivity|].
  exact (proj2 (proj2 (proj2 (runtime_delete_then_read 9 seeded_process
                                nine_is_int64 eq_refl)) eq_refl)).
Defined.

End RunningMoreInstances.
